(** * mldata.dataset: the paginated, cached element-retrieval pipeline

    A shallow embedding of [src/mldata/dataset.py] (class [Dataset]) and the
    properties of its access paths: the key resolver [_get_key] with its
    time-bounded page cache, the segment fetcher [_request_segment], the
    indexable-collection entry point [__getitem__], ordered iteration
    [__iter__], and the mutations [__delitem__] / [add_element] with
    [refresh].

    Python objects are modelled as records, exceptions as values of [exn],
    and every method as a computation in a state-and-exception monad over a
    [World]: the remote service's state, the [Dataset] object's fields, the
    log of requests sent, the futures handed out by [pool_content], the wall
    clock and the local files.  Mutations done before an exception is raised
    persist, as they do in Python. *)

From Stdlib Require Import ZArith String Ascii List Lia DecimalString DecimalPos DecimalZ.
From stdpp Require Import base option list gmap strings.

Local Open Scope string_scope.
Local Open Scope list_scope.
Local Open Scope Z_scope.

(** ** Python values *)

Definition bytes := list Byte.byte.

(** [slice(start, stop, step)]; an omitted field is [None]. *)
Record Slice := slice { slice_start : option Z; slice_stop : option Z; slice_step : option Z }.

(** The keys [Dataset.__getitem__] dispatches on: an [int], a [str] or a
    [slice]. *)
Inductive Key :=
| KInt (n : Z)
| KStr (s : string)
| KSlice (s : Slice).

(** The argument carried by a [KeyError]. *)
Inductive KeyErrorArg :=
| TypeNotAllowed                (* "Type of key not allowed." *)
| NotFound (k : Key)            (* "{} not found".format(key) *)
| MissingKey (k : Z).           (* a dict lookup that missed *)

Inductive exn :=
| KeyError (a : KeyErrorArg)
| IndexError
| ValueError
| TypeError
| ZeroDivisionError
| OverflowError
| AttributeError
| ContentException              (* Exception("content must be a binary data or a URI to a file.") *)
| RequestError (status : Z).    (* a failed remote request, raised by the API wrapper *)

(** [LookupError] is Python's common base class of [KeyError] and
    [IndexError]: a key or index that has no counterpart. *)
Definition is_LookupError (e : exn) : bool :=
  match e with
  | KeyError _ | IndexError => true
  | _ => false
  end.

(** The JSON dictionary describing one element, as the service returns it in
    page listings, bundles and single lookups. *)
Record ElemDict := { _id : string; d_title : string }.

(** The JSON dictionary describing the dataset, read by [refresh]. *)
Record DatasetDef := {
  def_url_prefix : string;
  def_title : string;
  def_description : string;
  def_reference : string;
  def_tags : list string;
  def_elements_count : Z;
  def_comments_count : Z
}.

(** The JSON body posted by [add_element]. *)
Record NewElement := {
  new_title : string;
  new_description : string;
  new_tags : list string;
  new_http_ref : string
}.

(** [l[i]] on a Python list: a negative index counts from the end, an index
    out of range raises [IndexError] (here [None]). *)
Definition list_getitem {A} (l : list A) (i : Z) : option A :=
  if 0 <=? i then l !! Z.to_nat i
  else if - Z.of_nat (length l) <=? i then l !! Z.to_nat (Z.of_nat (length l) + i)
  else None.

(** [range(start, stop, step)] for [step <> 0]. *)
Definition range_len (start stop step : Z) : Z :=
  if 0 <? step then (if start <? stop then (stop - start - 1) / step + 1 else 0)
  else (if stop <? start then (start - stop - 1) / (- step) + 1 else 0).

Definition py_range (start stop step : Z) : list Z :=
  map (fun k => start + Z.of_nat k * step) (seq 0 (Z.to_nat (range_len start stop step))).

(** [range(start, stop, step)] on the fields of a slice: [None] is no
    integer ([TypeError]), a zero step is a [ValueError]. *)
Definition range (start stop step : option Z) : exn + list Z :=
  match start, stop, step with
  | Some start', Some stop', Some step' =>
      if step' =? 0 then inl ValueError else inr (py_range start' stop' step')
  | _, _, _ => inl TypeError
  end.

(** The indices a slice selects, as [__getitem__] computes them:
<<
    step = key.step; start = key.start; stop = key.stop
    if key.step is None: step = 1
    if key.stop is None: stop = len(self)
    if key.stop < 0: stop = len(self) - stop
    ... range(start, stop, step)
>>
    [len] is the outcome of the call [len(self)], which has no effect and is
    made on these two lines only: an exception of it is raised there and
    nowhere else.  The comparison [key.stop < 0] is on the field as given:
    on [None] it raises [TypeError]. *)
Definition slice_indices (key : Slice) (len : exn + Z) : exn + list Z :=
  let step := slice_step key in
  let start := slice_start key in
  let stop := slice_stop key in
  let step := match slice_step key with None => Some 1 | Some _ => step end in
  match slice_stop key with
  | None =>
      match len with
      | inl e => inl e                      (* stop = len(self) *)
      | inr _ => inl TypeError              (* None < 0 *)
      end
  | Some key_stop =>
      if key_stop <? 0 then
        match len with
        | inl e => inl e                    (* stop = len(self) - stop *)
        | inr len' => range start ((fun stop' => len' - stop') <$> stop) step
        end
      else range start stop step
  end.

(** [str(n)] for an [int]. *)
Definition str_of_int (n : Z) : string := NilZero.string_of_int (Z.to_int n).

(** *** [int(s)] for a [str]

    Base ten: surrounding whitespace is stripped, one sign is allowed, then
    digits with single underscores between them.  Anything else is a
    [ValueError] ([None]).  Strings are ASCII here, and the whitespace
    [int] strips from an ASCII string is the tab, the line feed, the
    vertical tab, the form feed, the carriage return (codes 9 to 13) and the
    space (32); the separators of codes 28 to 31 are not part of it. *)
Definition is_space (c : ascii) : bool :=
  let n := nat_of_ascii c in
  ((9 <=? n) && (n <=? 13) || (n =? 32))%nat.

Definition digit_val (c : ascii) : option Z :=
  let n := nat_of_ascii c in
  if ((48 <=? n) && (n <=? 57))%nat then Some (Z.of_nat (n - 48)) else None.

Fixpoint lstrip (s : string) : string :=
  match s with
  | String c r => if is_space c then lstrip r else s
  | EmptyString => EmptyString
  end.

(** What follows a digit: more digits, an underscore before a digit, or
    trailing whitespace only. *)
Fixpoint all_space (s : string) : bool :=
  match s with
  | EmptyString => true
  | String c r => is_space c && all_space r
  end.

Fixpoint digits_tail (acc : Z) (s : string) : option Z :=
  match s with
  | EmptyString => Some acc
  | String c r =>
      match digit_val c with
      | Some d => digits_tail (10 * acc + d) r
      | None =>
          if Ascii.eqb c "_" then
            match r with
            | String c' r' =>
                match digit_val c' with
                | Some d => digits_tail (10 * acc + d) r'
                | None => None
                end
            | EmptyString => None
            end
          else if all_space s then Some acc else None
      end
  end.

Definition digits (s : string) : option Z :=
  match s with
  | String c r => match digit_val c with Some d => digits_tail d r | None => None end
  | EmptyString => None
  end.

Definition int_of_str (s : string) : option Z :=
  match lstrip s with
  | String "+" r => digits r
  | String "-" r => Z.opp <$> digits r
  | r => digits r
  end.

(** The number a run of decimal digits spells, and the character of a
    digit. *)
Fixpoint spell (acc : Z) (ds : list nat) : Z :=
  match ds with
  | [] => acc
  | d :: ds' => spell (10 * acc + Z.of_nat d) ds'
  end.

Definition digit_char (d : nat) : ascii := ascii_of_nat (48 + d).

(** [len(str(key))] and [int(key)] for the two non-slice key shapes. *)
Definition key_str (k : Key) : option string :=
  match k with
  | KInt n => Some (str_of_int n)
  | KStr s => Some s
  | KSlice _ => None
  end.

Definition key_int (k : Key) : option Z :=
  match k with
  | KInt n => Some n
  | KStr s => int_of_str s
  | KSlice _ => None
  end.

(** ** The Dataset object *)

Record Interpreter := { cipher : bytes -> bytes }.

Record Dataset := mkDataset {
  url_prefix : string;                      (* self.data['url_prefix'] *)
  title : string;
  description : string;
  reference : string;
  tags : list string;
  binary_interpreter : option Interpreter;
  elements_count : Z;
  comments_count : Z;
  page_cache : gmap Z (list ElemDict);
  last_cache_time : Z;
  page_size : Z                             (* self.server_info['Page-Size'] *)
}.

(** Modelled from the spec: [Element] of [mldata.element], which is not
    among the sources at hand.  An element is the metadata it was built
    from ([Element.from_dict]) and the future attached to it:
    [content_promise] is the handle of a job submitted to [pool_content].
    Elements holding the same handle share one job. *)
Record Element := { el_dict : ElemDict; content_promise : option nat }.

Definition get_id (e : Element) : string := _id (el_dict e).

Definition from_dict (d : ElemDict) : Element :=
  {| el_dict := d; content_promise := None |}.

Definition set_promise (f : nat) (e : Element) : Element :=
  {| el_dict := el_dict e; content_promise := Some f |}.

(** What [__getitem__] returns: the element itself when there is exactly
    one, the list otherwise. *)
Inductive Item :=
| One (e : Element)
| Many (l : list Element).

Definition item_elements (i : Item) : list Element :=
  match i with
  | One e => [e]
  | Many l => l
  end.

(** ** Requests and the remote service *)

Inductive Request :=
| GetElementsPage (prefix : string) (page : Z)          (* GET datasets/{}/elements ?page= *)
| GetElement (prefix : string) (id : string)            (* GET datasets/{}/elements/{} *)
| GetBundle (prefix : string) (ids : list string)       (* datasets/{}/elements/bundle *)
| GetContent (prefix : string) (ids : list string)      (* datasets/{}/elements/content *)
| GetElementContent (prefix : string) (id : string)     (* Element._retrieve_content *)
| PutElementContent (prefix : string) (id : string)     (* Element.set_content *)
| PostElement (prefix : string) (e : NewElement)        (* POST datasets/{}/elements *)
| DeleteElement (prefix : string) (id : string)         (* DELETE datasets/{}/elements/{} *)
| GetDataset (prefix : string).                         (* GET datasets/{} *)

(** The result a content future resolves to. *)
Inductive Content :=
| Packet (p : list (string * bytes))      (* dict(PyZip.from_bytes(...)) *)
| Single (b : bytes).

(** The service behind the API wrapper ([_get_json], [_post_json],
    [_delete_json], [_get_binary] of [mldata.wrapper.api_wrapper], not among
    the sources at hand), as a transition system on its own state: each
    operation answers a request or fails with an exception.
    [srv_round_trip] is the time one request takes. *)
Class Remote (Srv : Type) := {
  srv_elements_page : Srv -> string -> Z -> exn + list ElemDict;
  srv_element : Srv -> string -> string -> exn + ElemDict;
  srv_bundle : Srv -> string -> list string -> exn + list ElemDict;
  srv_content : Srv -> string -> list string -> exn + list (string * bytes);
  srv_element_content : Srv -> string -> string -> exn + bytes;
  srv_put_content : Srv -> string -> string -> bytes -> bool -> (exn + unit) * Srv;
  srv_post_element : Srv -> string -> NewElement -> (exn + string) * Srv;
  srv_delete_element : Srv -> string -> string -> (exn + unit) * Srv;
  srv_dataset : Srv -> string -> exn + DatasetDef;
  srv_round_trip : Srv -> Z
}.

(** What the program takes from its surroundings.  [CACHE_TIME] of
    [mldata.config], which is not among the sources at hand: the cache
    time-to-live, a parameter, in the unit of the clock.  [sys_maxsize] is
    the interpreter's [sys.maxsize], the largest length [len] returns. *)
Class Config := { CACHE_TIME : Z; sys_maxsize : Z }.

(** The check the built-in [len] makes on what [__len__] returned: a
    negative number is a [ValueError], one beyond [sys.maxsize] an
    [OverflowError]. *)
Definition len_check `{!Config} (n : Z) : exn + Z :=
  if n <? 0 then inl ValueError
  else if sys_maxsize <? n then inl OverflowError
  else inr n.

(** Modelled from the spec: [segments] of [mldata.config], which is not part
    of the sources at hand.  A segment is "a maximal list of identifiers,
    capped at the server-declared page size": the list is cut into
    consecutive chunks of [n] identifiers, the last one possibly shorter.
    The spec defines nothing for a cap that is not positive; no segment is
    produced then. *)
Fixpoint segments_aux {A} (fuel : nat) (l : list A) (n : nat) : list (list A) :=
  match fuel, l with
  | O, _ | _, [] => []
  | S fuel', _ => take n l :: segments_aux fuel' (drop n l) n
  end.

Definition segments {A} (l : list A) (n : Z) : list (list A) :=
  if 0 <? n then segments_aux (length l) l (Z.to_nat n) else [].

(** ** The world and the monad of methods *)

Record World (Srv : Type) := mkWorld {
  w_srv : Srv;                                (* state of the remote service *)
  w_self : Dataset;                         (* the fields of [self] *)
  w_requests : list Request;                (* requests sent so far, oldest first *)
  w_futures : list (exn + Content);         (* futures of pool_content, by handle *)
  w_clock : Z;                              (* what now() reads *)
  w_files : gmap string bytes               (* the local files, by path *)
}.
Arguments mkWorld {Srv}.
Arguments w_srv {Srv}.
Arguments w_self {Srv}.
Arguments w_requests {Srv}.
Arguments w_futures {Srv}.
Arguments w_clock {Srv}.
Arguments w_files {Srv}.

Definition M (Srv A : Type) : Type := World Srv -> (exn + A) * World Srv.

Definition ret {Srv A} (a : A) : M Srv A := fun w => (inr a, w).

Definition raise {Srv A} (e : exn) : M Srv A := fun w => (inl e, w).

Definition bind {Srv A B} (m : M Srv A) (k : A -> M Srv B) : M Srv B :=
  fun w =>
    match m w with
    | (inr a, w') => k a w'
    | (inl e, w') => (inl e, w')
    end.

(** [try: m except <handles>: h]; an exception the handler does not take
    ([h e = None]) propagates. *)
Definition try_except {Srv A} (m : M Srv A) (h : exn -> option (M Srv A)) : M Srv A :=
  fun w =>
    match m w with
    | (inr a, w') => (inr a, w')
    | (inl e, w') =>
        match h e with
        | Some handler => handler w'
        | None => (inl e, w')
        end
    end.

(** An outcome computed without effects: returned, or raised. *)
Definition outcome {Srv A} (r : exn + A) : M Srv A :=
  match r with
  | inr a => ret a
  | inl e => raise e
  end.

(** A computation run for its outcome, which is handed on instead of being
    raised. *)
Definition attempt {Srv A} (m : M Srv A) : M Srv (exn + A) :=
  fun w => let '(r, w') := m w in (inr r, w').

Definition gets {Srv A} (f : World Srv -> A) : M Srv A := fun w => (inr (f w), w).

Definition modify {Srv} (f : World Srv -> World Srv) : M Srv unit := fun w => (inr tt, f w).

Declare Scope py_scope.
Delimit Scope py_scope with py.
Notation "x <- c1 ;; c2" := (bind c1 (fun x => c2))
  (at level 100, c1 at next level, right associativity) : py_scope.
Notation "c1 ;; c2" := (bind c1 (fun _ => c2))
  (at level 100, right associativity) : py_scope.
Local Open Scope py_scope.

(** A list comprehension [[f(x) for x in l]] whose body has effects: left to
    right, stopping at the first exception. *)
Fixpoint for_each {Srv A B} (f : A -> M Srv B) (l : list A) : M Srv (list B) :=
  match l with
  | [] => ret []
  | x :: l' => y <- f x ;; ys <- for_each f l' ;; ret (y :: ys)
  end.

(** Field updates of [self] and of the world. *)
Definition set_self {Srv} (f : Dataset -> Dataset) (w : World Srv) : World Srv :=
  mkWorld (w_srv w) (f (w_self w)) (w_requests w) (w_futures w) (w_clock w) (w_files w).

Definition set_page_cache (c : gmap Z (list ElemDict)) (d : Dataset) : Dataset :=
  mkDataset (url_prefix d) (title d) (description d) (reference d) (tags d)
    (binary_interpreter d) (elements_count d) (comments_count d) c
    (last_cache_time d) (page_size d).

Definition set_last_cache_time (t : Z) (d : Dataset) : Dataset :=
  mkDataset (url_prefix d) (title d) (description d) (reference d) (tags d)
    (binary_interpreter d) (elements_count d) (comments_count d) (page_cache d)
    t (page_size d).

(** The three assignments of [refresh]. *)
Definition set_definition (dd : DatasetDef) (d : Dataset) : Dataset :=
  mkDataset (def_url_prefix dd) (def_title dd) (def_description dd) (def_reference dd)
    (def_tags dd) (binary_interpreter d) (def_elements_count dd) (def_comments_count dd)
    (page_cache d) (last_cache_time d) (page_size d).

Section Client.
Context {Srv : Type} `{!Remote Srv} `{!Config}.

(** *** The API wrapper: one request, one answer

    The request is logged and takes [srv_round_trip] on the clock; the
    answer is the service's, an exception included. *)
Definition sent (r : Request) (s : Srv) (w : World Srv) : World Srv :=
  mkWorld s (w_self w) (w_requests w ++ [r]) (w_futures w)
    (w_clock w + srv_round_trip (w_srv w)) (w_files w).

Definition request {A} (r : Request) (answer : Srv -> exn + A) : M Srv A :=
  fun w => (answer (w_srv w), sent r (w_srv w) w).

Definition request_upd {A} (r : Request) (step : Srv -> (exn + A) * Srv) : M Srv A :=
  fun w => let '(a, s) := step (w_srv w) in (a, sent r s w).

(** [now] of [mldata.config] reads the wall clock, a field of the world. *)
Definition now : M Srv Z := gets w_clock.

Definition get_url_prefix : M Srv string := gets (fun w => url_prefix (w_self w)).

(** [__len__] *)
Definition __len__ : M Srv Z := gets (fun w => elements_count (w_self w)).

(** [len(self)]: the method [__len__], then the check of the built-in. *)
Definition len_self : M Srv Z :=
  n <- __len__ ;;
  outcome (len_check n).

(** *** The worker pools

    A job submitted to a pool is run to its end (there is no cancellation);
    the model runs it at submission, in submission order.  A future of
    [pool_keys] holds the job's outcome; [result] returns it or re-raises.
    A future of [pool_content] is a handle into [w_futures], where the
    outcome stays until some element's promise is dereferenced. *)
Definition pool_keys_submit {A} (job : M Srv A) : M Srv (exn + A) :=
  fun w => let '(r, w') := job w in (inr r, w').

Definition result {A} (future : exn + A) : M Srv A := outcome future.

Definition pool_content_submit (job : M Srv Content) : M Srv nat :=
  fun w =>
    let '(r, w') := job w in
    (inr (length (w_futures w')),
     mkWorld (w_srv w') (w_self w') (w_requests w') (w_futures w' ++ [r])
       (w_clock w') (w_files w')).

(** [_retrieve_segment_contents] *)
Definition _retrieve_segment_contents (ids : list string) : M Srv Content :=
  prefix <- get_url_prefix ;;
  packet <- request (GetContent prefix ids) (fun s => srv_content s prefix ids) ;;
  ret (Packet packet).

(** Modelled from the spec: [Element._retrieve_content], the
    single-identifier content job ("content individually fetched"). *)
Definition _retrieve_content (element : Element) : M Srv Content :=
  prefix <- get_url_prefix ;;
  b <- request (GetElementContent prefix (get_id element))
         (fun s => srv_element_content s prefix (get_id element)) ;;
  ret (Single b).

(** [_request_segment] *)
Definition _request_segment (ids : list string) : M Srv (list Element) :=
  prefix <- get_url_prefix ;;
  results <- request (GetBundle prefix ids) (fun s => srv_bundle s prefix ids) ;;
  let elements := map from_dict results in
  future <- pool_content_submit (_retrieve_segment_contents ids) ;;
  ret (map (set_promise future) elements).

(** [_get_elements] *)
Definition _get_elements (page : Z) : M Srv (list Element) :=
  prefix <- get_url_prefix ;;
  dicts <- request (GetElementsPage prefix page) (fun s => srv_elements_page s prefix page) ;;
  ret (map from_dict dicts).

(** [_get_key] *)
Definition _get_key (key_index : Z) : M Srv string :=
  ps <- gets (fun w => page_size (w_self w)) ;;
  if ps =? 0 then raise ZeroDivisionError else
  let key_page := key_index / ps in
  let index := key_index mod ps in
  page <- try_except
    (t <- now ;;
     last <- gets (fun w => last_cache_time (w_self w)) ;;
     (if CACHE_TIME <? t - last
      then modify (set_self (set_page_cache ∅))
      else ret tt) ;;
     cache <- gets (fun w => page_cache (w_self w)) ;;
     match cache !! key_page with
     | Some page => ret page
     | None => raise (KeyError (MissingKey key_page))
     end)
    (fun ex =>
       match ex with
       | KeyError _ => Some
           (* Cache miss *)
           (prefix <- get_url_prefix ;;
            page <- request (GetElementsPage prefix key_page)
                      (fun s => srv_elements_page s prefix key_page) ;;
            modify (set_self (fun d => set_page_cache (<[key_page := page]> (page_cache d)) d)) ;;
            t <- now ;;
            modify (set_self (set_last_cache_time t)) ;;
            ret page)
       | _ => None
       end) ;;
  match list_getitem page index with
  | Some d => ret (_id d)
  | None => raise IndexError
  end.

(** [keys] *)
Definition keys (page : Z) : M Srv (list string) :=
  if page =? -1 then
    len <- len_self ;;
    for_each _get_key (py_range 0 len 1)
  else
    prefix <- get_url_prefix ;;
    dicts <- request (GetElementsPage prefix page) (fun s => srv_elements_page s prefix page) ;;
    ret (map _id dicts).

(** [__getitem__] *)
Definition __getitem__ (key : Key) : M Srv Item :=
  key <- match key_str key with
         | Some str_key =>
             if (String.length str_key <? 8)%nat then
               match key_int key with
               | Some n => ret (KSlice (slice (Some n) (Some (n + 1)) (Some 1)))
               | None => raise ValueError
               end
             else ret key
         | None => ret key
         end ;;
  elements <-
    match key with
    | KSlice k =>
        len <- attempt len_self ;;      (* raised where [slice_indices] calls it *)
        ps <- gets (fun w => page_size (w_self w)) ;;
        indices <- outcome (slice_indices k len) ;;
        ids <- for_each _get_key indices ;;
        futures <- for_each (fun segment => pool_keys_submit (_request_segment ids))
                     (segments ids ps) ;;
        chunks <- for_each result futures ;;
        ret (concat chunks)
    | KStr key_s =>
        try_except
          (prefix <- get_url_prefix ;;
           response <- request (GetElement prefix key_s) (fun s => srv_element s prefix key_s) ;;
           let element := from_dict response in
           promise <- pool_content_submit (_retrieve_content element) ;;
           ret [set_promise promise element])
          (fun ex => Some (ret []))
    | KInt _ => raise (KeyError TypeNotAllowed)
    end ;;
  match elements with
  | [] => raise (KeyError (NotFound key))
  | [element] => ret (One element)
  | _ => ret (Many elements)
  end.

(** [refresh] *)
Definition refresh : M Srv unit :=
  prefix <- get_url_prefix ;;
  dataset_data <- request (GetDataset prefix) (fun s => srv_dataset s prefix) ;;
  modify (set_self (set_definition dataset_data)).

(** [__delitem__] *)
Definition __delitem__ (key : string) : M Srv unit :=
  prefix <- get_url_prefix ;;
  request_upd (DeleteElement prefix key) (fun s => srv_delete_element s prefix key) ;;
  refresh.

(** [__iter__], consumed to its end as [list(self)] does.  [buffer] is the
    future of the page about to be yielded. *)
Fixpoint iter_pages (pages : list Z) (buffer : option (exn + list Element))
  : M Srv (list Element) :=
  match pages with
  | [] => ret []
  | page :: pages' =>
      buffer <- match buffer with
                | None => pool_keys_submit (_get_elements page)
                | Some b => ret b
                end ;;
      buffer2 <- pool_keys_submit (_get_elements (page + 1)) ;;
      elements <- result buffer ;;
      future <- pool_content_submit (_retrieve_segment_contents (map get_id elements)) ;;
      let yielded := map (set_promise future) elements in
      more <- iter_pages pages' (Some buffer2) ;;
      ret (yielded ++ more)
  end.

Definition number_of_pages (len ps : Z) : Z :=
  len / ps + (if 0 <? len mod ps then 1 else 0).

Definition __iter__ : M Srv (list Element) :=
  ps <- gets (fun w => page_size (w_self w)) ;;
  len <- len_self ;;
  if ps =? 0 then raise ZeroDivisionError else
  iter_pages (py_range 0 (number_of_pages len ps) 1) None.

(** [add_element]; [content] is a path ([str]) or the bytes themselves.
    [Element.set_content] (of [mldata.element], not among the sources at
    hand) is one upload request. *)
Definition add_element (title description : string) (tags : list string) (http_ref : string)
    (content : string + bytes) (interpret : bool) : M Srv Element :=
  content <- match content with
             | inl path =>
                 files <- gets w_files ;;
                 match files !! path with
                 | None => raise ContentException
                 | Some content_bytes =>
                     interpreter <- gets (fun w => binary_interpreter (w_self w)) ;;
                     ret (match interpreter with
                          | None => content_bytes
                          | Some i => cipher i content_bytes
                          end)
                 end
             | inr b => ret b
             end ;;
  prefix <- get_url_prefix ;;
  let body := {| new_title := title; new_description := description;
                 new_tags := tags; new_http_ref := http_ref |} in
  created <- request_upd (PostElement prefix body) (fun s => srv_post_element s prefix body) ;;
  refresh ;;
  item <- __getitem__ (KStr created) ;;
  match item with
  | One element =>
      prefix <- get_url_prefix ;;
      request_upd (PutElementContent prefix (get_id element))
        (fun s => srv_put_content s prefix (get_id element) content interpret) ;;
      ret element
  | Many _ => raise AttributeError
  end.
End Client.

(** ** What an honest service serves

    Page [p] of a listing [l] under page size [ps]: the [ps] entries from
    position [p * ps] on; no entry for a page that does not exist. *)
Definition page_of {A} (l : list A) (ps p : Z) : list A :=
  if p <? 0 then [] else take (Z.to_nat ps) (drop (Z.to_nat (p * ps)) l).

(** The service lists [l] for the dataset [prefix], page by page. *)
Definition serves {Srv} `{!Remote Srv} (s : Srv) (prefix : string) (ps : Z)
    (l : list ElemDict) : Prop :=
  forall p, srv_elements_page s prefix p = inr (page_of l ps p).

(** Every cached page is the page the service would serve now. *)
Definition cache_coherent {Srv} `{!Remote Srv} (w : World Srv) : Prop :=
  forall p page,
    page_cache (w_self w) !! p = Some page ->
    srv_elements_page (w_srv w) (url_prefix (w_self w)) p = inr page.

(** The page a resolve reads page number [p] from: the cached entry, if the
    cache has not expired and holds one, otherwise what the service answers
    to the request made then. *)
Definition page_in_use {Srv} `{!Remote Srv} `{!Config} (w : World Srv) (p : Z)
    : exn + list ElemDict :=
  let kept := if CACHE_TIME <? w_clock w - last_cache_time (w_self w)
              then ∅ else page_cache (w_self w) in
  match kept !! p with
  | Some page => inr page
  | None => srv_elements_page (w_srv w) (url_prefix (w_self w)) p
  end.

(** The elements of one page as [__iter__] yields them: all with the same
    future. *)
Definition yield_page (future : nat) (page : list ElemDict) : list Element :=
  map (set_promise future) (map from_dict page).

(** The outcome of the content job [_retrieve_segment_contents ids]. *)
Definition content_outcome {Srv} `{!Remote Srv} (s : Srv) (prefix : string)
    (ids : list string) : exn + Content :=
  match srv_content s prefix ids with
  | inr packet => inr (Packet packet)
  | inl e => inl e
  end.

(** [k] consecutive page numbers from [p] on. *)
Fixpoint pages_from (p : Z) (k : nat) : list Z :=
  match k with
  | O => []
  | S k' => p :: pages_from (p + 1) k'
  end.

(** The fields of [self] the key resolver works on are the same in [w'] as
    in [w]. *)
Definition keeps_cache {Srv} (w w' : World Srv) : Prop :=
  page_cache (w_self w') = page_cache (w_self w) /\
  last_cache_time (w_self w') = last_cache_time (w_self w) /\
  page_size (w_self w') = page_size (w_self w).

(** The observations the properties are stated on. *)
Definition page_requests (rs : list Request) : list Z :=
  omap (fun r => match r with GetElementsPage _ p => Some p | _ => None end) rs.

Definition bundle_requests (rs : list Request) : list (list string) :=
  omap (fun r => match r with GetBundle _ ids => Some ids | _ => None end) rs.

Definition content_requests (rs : list Request) : list (list string) :=
  omap (fun r => match r with GetContent _ ids => Some ids | _ => None end) rs.

(** ** An in-memory service

    Modelled from the spec: the remote dataset service of section 6 (external
    interfaces), which is outside this repository.  It keeps the elements in
    listing order, serves pages of [m_page_size] summaries, answers a bundle
    with the metadata of the identifiers it knows (in the order asked, or
    reversed when [m_reversed]: the spec leaves the order open), and hands
    out the identifiers of [m_fresh] to created elements. *)
Record MemServer := mkMem {
  m_def : DatasetDef;
  m_elements : list (ElemDict * bytes);
  m_page_size : Z;
  m_fresh : list string;
  m_reversed : bool;
  m_latency : Z
}.

Definition mem_find (s : MemServer) (id : string) : option (ElemDict * bytes) :=
  find (fun e => String.eqb (_id (fst e)) id) (m_elements s).

Definition mem_set_elements (es : list (ElemDict * bytes)) (fresh : list string)
    (s : MemServer) : MemServer :=
  mkMem (m_def s) es (m_page_size s) fresh (m_reversed s) (m_latency s).

Definition mem_bundle (s : MemServer) (ids : list string) : list ElemDict :=
  let found := omap (fun id => fst <$> mem_find s id) ids in
  if m_reversed s then rev found else found.

Definition mem_dataset (s : MemServer) : DatasetDef :=
  let d := m_def s in
  {| def_url_prefix := def_url_prefix d; def_title := def_title d;
     def_description := def_description d; def_reference := def_reference d;
     def_tags := def_tags d;
     def_elements_count := Z.of_nat (length (m_elements s));
     def_comments_count := def_comments_count d |}.

#[export] Instance MemRemote : Remote MemServer := {|
  srv_elements_page s _ p := inr (page_of (map fst (m_elements s)) (m_page_size s) p);
  srv_element s _ id :=
    match mem_find s id with
    | Some e => inr (fst e)
    | None => inl (RequestError 404)
    end;
  srv_bundle s _ ids := inr (mem_bundle s ids);
  srv_content s _ ids := inr (omap (fun id => (fun e => (id, snd e)) <$> mem_find s id) ids);
  srv_element_content s _ id :=
    match mem_find s id with
    | Some e => inr (snd e)
    | None => inl (RequestError 404)
    end;
  srv_put_content s _ id content _ :=
    match mem_find s id with
    | Some _ =>
        (inr tt,
         mem_set_elements
           (map (fun e => if String.eqb (_id (fst e)) id then (fst e, content) else e)
              (m_elements s))
           (m_fresh s) s)
    | None => (inl (RequestError 404), s)
    end;
  srv_post_element s _ body :=
    match m_fresh s with
    | id :: fresh =>
        (inr id,
         mem_set_elements
           (m_elements s ++ [({| _id := id; d_title := new_title body |}, [])]) fresh s)
    | [] => (inl (RequestError 500), s)
    end;
  srv_delete_element s _ id :=
    match mem_find s id with
    | Some _ =>
        (inr tt,
         mem_set_elements
           (filter (fun e => negb (String.eqb (_id (fst e)) id)) (m_elements s))
           (m_fresh s) s)
    | None => (inl (RequestError 404), s)
    end;
  srv_dataset s _ := inr (mem_dataset s);
  srv_round_trip s := m_latency s
|}.

(** [Dataset.from_dict] on the definition the service returns, at time [t],
    in a session whose server info declares [ps] as Page-Size. *)
Definition Dataset_from_dict (definition : DatasetDef) (interpreter : option Interpreter)
    (ps t : Z) : Dataset :=
  {| url_prefix := def_url_prefix definition;
     title := def_title definition;
     description := def_description definition;
     reference := def_reference definition;
     tags := def_tags definition;
     binary_interpreter := interpreter;
     elements_count := def_elements_count definition;
     comments_count := def_comments_count definition;
     page_cache := ∅;
     last_cache_time := t;
     page_size := ps |}.

(** A client freshly connected to an in-memory service, at time 0. *)
Definition connect (s : MemServer) : World MemServer :=
  {| w_srv := s;
     w_self := Dataset_from_dict (mem_dataset s) None (m_page_size s) 0;
     w_requests := [];
     w_futures := [];
     w_clock := 0;
     w_files := ∅ |}.

(** Time passing between two calls. *)
Definition elapse {Srv} (dt : Z) (w : World Srv) : World Srv :=
  mkWorld (w_srv w) (w_self w) (w_requests w) (w_futures w) (w_clock w + dt) (w_files w).

(** The scenario of the spec: Page-Size 2, five elements [a] to [e]. *)
Definition el (id : string) : ElemDict * bytes := ({| _id := id; d_title := id |}, []).

Definition mem_service (ids : list string) (ps : Z) (reversed : bool) : MemServer :=
  {| m_def := {| def_url_prefix := "user/data"; def_title := "data"; def_description := "";
                 def_reference := ""; def_tags := [];
                 def_elements_count := 0; def_comments_count := 0 |};
     m_elements := map el ids;
     m_page_size := ps;
     m_fresh := ["0123456789abcdef"];
     m_reversed := reversed;
     m_latency := 1 |}.

Definition abcde : list string := ["a"; "b"; "c"; "d"; "e"].

Definition scenario : World MemServer := connect (mem_service abcde 2 false).

#[export] Instance config60 : Config :=
  {| CACHE_TIME := 60; sys_maxsize := 9223372036854775807 |}.

(** The slices and observations used below. *)
Definition py_slice (start stop : Z) : Key := KSlice (slice (Some start) (Some stop) None).

Definition returned_ids (r : exn + Item) : exn + list string :=
  match r with
  | inr item => inr (map get_id (item_elements item))
  | inl e => inl e
  end.

(** Ten elements on one page. *)
Definition decade : World MemServer :=
  connect (mem_service ["e0"; "e1"; "e2"; "e3"; "e4"; "e5"; "e6"; "e7"; "e8"; "e9"] 10 false).

(** The scenario after page 0 was resolved once (and so is cached). *)
Definition scenario_cached : World MemServer := snd (_get_key 0 scenario).

(** Two elements on one page, the page cached by a first resolve. *)
Definition pair_cached : World MemServer :=
  snd (_get_key 1 (connect (mem_service ["a"; "b"] 2 false))).

(** The scenario on a service that answers bundles in reverse order, with a
    page size that keeps [ds[1:4]] in one segment. *)
Definition scenario_reversed : World MemServer := connect (mem_service abcde 4 true).


(** ** Vocabulary for the remaining methods *)


(** The footprint of the key resolver: between [w] and [w'] only the page
    cache and its timestamp were written, only page requests were sent (for
    [pages], in this order), and time has passed. *)
Definition only_resolved {Srv} (pages : list Z) (w w' : World Srv) : Prop :=
  exists c t dt,
    w' = mkWorld (w_srv w) (set_last_cache_time t (set_page_cache c (w_self w)))
           (w_requests w ++ map (GetElementsPage (url_prefix (w_self w))) pages)
           (w_futures w) (w_clock w + dt) (w_files w).


(** A client of a service that lists [l], with a cache that agrees with
    it. *)
Definition in_step {Srv} `{!Remote Srv} (l : list ElemDict) (w : World Srv) : Prop :=
  0 < page_size (w_self w) /\
  serves (w_srv w) (url_prefix (w_self w)) (page_size (w_self w)) l /\
  cache_coherent w.

(** The last step of [__getitem__]: a bare element, a list, or Not-Found. *)
Definition item_of (key : Key) (elements : list Element) : exn + Item :=
  match elements with
  | [] => inl (KeyError (NotFound key))
  | [element] => inr (One element)
  | _ => inr (Many elements)
  end.


(** The elements [a], [a+1], ..., [b-1] of a listing. *)
Definition sublist {A} (a b : Z) (l : list A) : list A :=
  take (Z.to_nat (b - a)) (drop (Z.to_nat a) l).

(** ** [__init__]: the URL prefix

    [token.get_prefix()] is all that [__init__] asks of a token. *)
Record Token := { get_prefix : string }.

(** ["/" in s] *)
Definition has_slash (s : string) : bool :=
  existsb (Ascii.eqb "/") (list_ascii_of_string s).

(** What [__init__] stores under [data['url_prefix']], if anything:
<<
    if "/" in url_prefix: self.data['url_prefix'] = url_prefix
    else:
        if token is not None:
            self.data['url_prefix'] = '{}/{}'.format(token.get_prefix(), url_prefix)
>>
    [None] is the dictionary left without the key. *)
Definition init_url_prefix (url_prefix : string) (token : option Token) : option string :=
  if has_slash url_prefix then Some url_prefix
  else match token with
       | Some tk => Some (get_prefix tk ++ "/" ++ url_prefix)%string
       | None => None
       end.

(** ** [save_to_folder]: the names of the entries

    The keys of the [metadata] dictionary, which are also the file names of
    the contents: an [int] (a running number without extension) or a
    [str]. *)
Inductive FileKey :=
| FileInt (n : Z)
| FileStr (s : string).

Definition FileKey_eqb (a b : FileKey) : bool :=
  match a, b with
  | FileInt n, FileInt m => n =? m
  | FileStr s, FileStr t => String.eqb s t
  | _, _ => false
  end.

(** [elements_extension[1:]] when it starts with a dot. *)
Definition strip_leading_dot (elements_extension : option string) : option string :=
  match elements_extension with
  | Some (String "." rest) => Some rest
  | other => other
  end.

(** ['{}'.format(id)] *)
Definition format_key (id : FileKey) : string :=
  match id with
  | FileInt n => str_of_int n
  | FileStr s => s
  end.

(** [element_id], from [id] and the extension. *)
Definition element_key (elements_extension : option string) (id : FileKey) : FileKey :=
  match elements_extension with
  | None => id
  | Some ext => FileStr (format_key id ++ "." ++ ext)%string
  end.

(** [d[k] = v] on a dictionary kept in insertion order: a key that is
    present keeps its place and takes the new value. *)
Fixpoint dict_set {V} (k : FileKey) (v : V) (d : list (FileKey * V)) : list (FileKey * V) :=
  match d with
  | [] => [(k, v)]
  | (k', v') :: d' => if FileKey_eqb k' k then (k, v) :: d' else (k', v') :: dict_set k v d'
  end.

(** The loop of [save_to_folder] that collects the metadata, over the
    elements that the iteration yields; [counter] is [id] while it is a
    running number.
<<
    metadata = {}
    id = -1
    for element in self:
        if use_numbered_ids: id += 1
        else: id = element.get_id()
        if elements_extension is None: element_id = id
        else: element_id = "{}.{}".format(id, elements_extension)
        metadata[element_id] = {'id': element.get_id(), ...}
>> *)
Fixpoint collect_metadata (use_numbered_ids : bool) (elements_extension : option string)
    (counter : Z) (metadata : list (FileKey * ElemDict)) (elements : list Element)
  : list (FileKey * ElemDict) :=
  match elements with
  | [] => metadata
  | element :: elements' =>
      let counter := if use_numbered_ids then counter + 1 else counter in
      let id := if use_numbered_ids then FileInt counter else FileStr (get_id element) in
      let element_id := element_key elements_extension id in
      collect_metadata use_numbered_ids elements_extension counter
        (dict_set element_id (el_dict element) metadata) elements'
  end.

(** The dictionary that [save_to_folder] hands to the format saver. *)
Definition saved_metadata (use_numbered_ids : bool) (elements_extension : option string)
    (elements : list Element) : list (FileKey * ElemDict) :=
  collect_metadata use_numbered_ids (strip_leading_dot elements_extension) (-1) [] elements.

(** ** More clients for the worked instances *)

(** A service like the in-memory one, of which only the page listing works:
    every other request fails with status 503. *)
Record Outage := outage { behind : MemServer }.

#[export] Instance OutageRemote : Remote Outage := {|
  srv_elements_page s prefix p := srv_elements_page (behind s) prefix p;
  srv_element _ _ _ := inl (RequestError 503);
  srv_bundle _ _ _ := inl (RequestError 503);
  srv_content _ _ _ := inl (RequestError 503);
  srv_element_content _ _ _ := inl (RequestError 503);
  srv_put_content s _ _ _ _ := (inl (RequestError 503), s);
  srv_post_element s _ _ := (inl (RequestError 503), s);
  srv_delete_element s _ _ := (inl (RequestError 503), s);
  srv_dataset _ _ := inl (RequestError 503);
  srv_round_trip s := m_latency (behind s)
|}.

(** The scenario during such an outage. *)
Definition scenario_outage : World Outage :=
  mkWorld (outage (w_srv scenario)) (w_self scenario) [] [] 0 ∅.

(** A service like the in-memory one that refuses a page beyond the end of
    the listing (status 404) where the in-memory one answers an empty
    list. *)
Record Strict := strict { lenient : MemServer }.

#[export] Instance StrictRemote : Remote Strict := {|
  srv_elements_page s prefix p :=
    match srv_elements_page (lenient s) prefix p with
    | inr [] => inl (RequestError 404)
    | answer => answer
    end;
  srv_element s := srv_element (lenient s);
  srv_bundle s := srv_bundle (lenient s);
  srv_content s := srv_content (lenient s);
  srv_element_content s := srv_element_content (lenient s);
  srv_put_content s prefix id content interpret :=
    let '(r, s') := srv_put_content (lenient s) prefix id content interpret in (r, strict s');
  srv_post_element s prefix body :=
    let '(r, s') := srv_post_element (lenient s) prefix body in (r, strict s');
  srv_delete_element s prefix id :=
    let '(r, s') := srv_delete_element (lenient s) prefix id in (r, strict s');
  srv_dataset s := srv_dataset (lenient s);
  srv_round_trip s := m_latency (lenient s)
|}.

(** The scenario on such a service. *)
Definition scenario_strict : World Strict :=
  mkWorld (strict (w_srv scenario)) (w_self scenario) [] [] 0 ∅.

(** The scenario seen by a client whose count is stale: it was read when
    the dataset had three elements. *)
Definition scenario_stale : World MemServer :=
  mkWorld (w_srv scenario) (w_self (connect (mem_service ["a"; "b"; "c"] 2 false))) [] [] 0 ∅.

(** The scenario seen by a client whose count is negative. *)
Definition scenario_miscounted : World MemServer :=
  mkWorld (w_srv scenario)
    (set_definition
       {| def_url_prefix := "user/data"; def_title := "data"; def_description := "";
          def_reference := ""; def_tags := [];
          def_elements_count := -1; def_comments_count := 0 |}
       (w_self scenario))
    [] [] 0 ∅.

(** Three elements with identifiers of the usual length. *)
Definition archive : World MemServer :=
  connect (mem_service ["element-0001"; "element-0002"; "element-0003"] 2 false).

(** The archive on a machine that has one file, with an interpreter that
    reverses the bytes. *)
Definition archive_with_file : World MemServer :=
  mkWorld (w_srv archive)
    (mkDataset (url_prefix (w_self archive)) (title (w_self archive))
       (description (w_self archive)) (reference (w_self archive)) (tags (w_self archive))
       (Some {| cipher := @rev Byte.byte |})
       (elements_count (w_self archive)) (comments_count (w_self archive))
       (page_cache (w_self archive)) (last_cache_time (w_self archive))
       (page_size (w_self archive)))
    [] [] 0 {[ "photo.bin" := [Byte.x01; Byte.x02; Byte.x03] ]}.


(** * Properties *)

(** Running a method means unfolding the monad. *)
(** [len] accepts a count from 0 to [sys.maxsize]. *)
Lemma len_check_accepts `{!Config} n : 0 <= n <= sys_maxsize -> len_check n = inr n.
Proof.
  intros Hn. unfold len_check.
  destruct (Z.ltb_spec n 0); [lia|]. destruct (Z.ltb_spec sys_maxsize n); [lia|reflexivity].
Qed.

(** [len(self)] reads the count and has no effect. *)
Lemma len_self_run {Srv} `{!Config} (w : World Srv) :
  len_self w = (len_check (elements_count (w_self w)), w).
Proof.
  unfold len_self, __len__, bind, gets, outcome, ret, raise.
  now destruct (len_check (elements_count (w_self w))).
Qed.

Lemma attempt_len_self {Srv} `{!Config} (w : World Srv) :
  attempt len_self w = (inr (len_check (elements_count (w_self w))), w).
Proof. unfold attempt. now rewrite len_self_run. Qed.

Ltac run :=
  unfold result, outcome, bind, ret, raise, try_except, gets, modify, request, request_upd,
    pool_keys_submit, pool_content_submit, now, get_url_prefix, __len__;
  simpl; rewrite ?attempt_len_self, ?len_self_run; simpl.

(** ** Keys: [int(key)] and the dispatch on the key's shape *)

Lemma digit_val_letter c :
  digit_val c = None <-> ~ (48 <= nat_of_ascii c <= 57)%nat.
Proof.
  unfold digit_val.
  destruct (Nat.leb_spec 48 (nat_of_ascii c)), (Nat.leb_spec (nat_of_ascii c) 57);
    simpl; split; intros; try discriminate; try reflexivity; lia.
Qed.

(** [int] reads a plain run of digits as the number it spells. *)
Lemma digit_val_digit_char d : (d < 10)%nat -> digit_val (digit_char d) = Some (Z.of_nat d).
Proof.
  intros Hd. do 10 (destruct d as [|d]; [reflexivity|]). lia.
Qed.

Lemma digits_tail_spells ds : forall acc,
  Forall (fun d => d < 10)%nat ds ->
  digits_tail acc (string_of_list_ascii (map digit_char ds)) = Some (spell acc ds).
Proof.
  induction ds as [|d ds IH]; intros acc Hds; [reflexivity|].
  inversion Hds as [|? ? Hd Hds']; subst. cbn [map string_of_list_ascii digits_tail spell].
  rewrite digit_val_digit_char by assumption. now apply IH.
Qed.

Lemma int_of_str_digits d ds :
  Forall (fun d => d < 10)%nat (d :: ds) ->
  int_of_str (string_of_list_ascii (map digit_char (d :: ds))) = Some (spell 0 (d :: ds)).
Proof.
  intros Hds. inversion Hds as [|? ? Hd Hds']; subst.
  assert (Hdv := digit_val_digit_char d Hd).
  unfold int_of_str. cbn [map string_of_list_ascii lstrip].
  assert (Hsp : is_space (digit_char d) = false)
    by (do 10 (destruct d as [|d]; [reflexivity|]); lia).
  rewrite Hsp.
  assert (Hshape : forall r, match String (digit_char d) r with
                             | String "+" r' => digits r'
                             | String "-" r' => Z.opp <$> digits r'
                             | r' => digits r'
                             end = digits (String (digit_char d) r)).
  { intros r. do 10 (destruct d as [|d]; [reflexivity|]). lia. }
  rewrite Hshape. cbn [digits]. rewrite Hdv. cbn [spell].
  rewrite Z.mul_0_r, Z.add_0_l. now apply digits_tail_spells.
Qed.

(** A string that starts with a letter is no integer. *)
Lemma int_of_str_letter c r :
  (65 <= nat_of_ascii c)%nat -> int_of_str (String c r) = None.
Proof.
  intros Hc. unfold int_of_str. cbn [lstrip].
  assert (Hsp : is_space c = false).
  { unfold is_space. cbv zeta.
    apply orb_false_iff; split;
      [apply andb_false_iff; right; apply Nat.leb_gt; lia | apply Nat.eqb_neq; lia]. }
  rewrite Hsp.
  assert (Hd : digit_val c = None) by (apply digit_val_letter; lia).
  destruct c as [[] [] [] [] [] [] [] []];
    try (exfalso; vm_compute in Hc; lia);
    cbn [digits]; rewrite Hd; reflexivity.
Qed.

(** ** Slices *)

(** An omitted step counts as 1. *)
Lemma slice_indices_omitted_step start stop len :
  slice_indices (slice start stop None) len = slice_indices (slice start stop (Some 1)) len.
Proof. reflexivity. Qed.

(** A negative stop [s] is replaced by [len - s], [len] being what
    [len(self)] returned. *)
Lemma slice_indices_negative_stop start s step len :
  s < 0 ->
  slice_indices (slice start (Some s) step) (inr len)
  = range start (Some (len - s)) (match step with None => Some 1 | Some _ => step end).
Proof.
  intros Hs. unfold slice_indices. cbn. destruct (Z.ltb_spec s 0); [reflexivity|lia].
Qed.

(** A stop that is not negative is taken as it is; [len(self)] is not
    called. *)
Lemma slice_indices_given_stop start s step len :
  0 <= s ->
  slice_indices (slice start (Some s) step) len
  = range start (Some s) (match step with None => Some 1 | Some _ => step end).
Proof.
  intros Hs. unfold slice_indices. cbn. destruct (Z.ltb_spec s 0); [lia|reflexivity].
Qed.

(** With both bounds given and a non-negative stop, the indices are those
    of [range(start, stop, step)]. *)
Lemma slice_indices_bounded start stop len :
  0 <= stop ->
  slice_indices (slice (Some start) (Some stop) None) len = inr (py_range start stop 1).
Proof.
  intros Hstop. unfold slice_indices. cbn. destruct (Z.ltb_spec stop 0); [lia|reflexivity].
Qed.

(** An omitted stop never gets as far as [range]: [len(self)] is called,
    and if it returns, [None < 0] raises. *)
Lemma slice_indices_omitted_stop start step len :
  slice_indices (slice start None step) len
  = inl (match len with inl e => e | inr _ => TypeError end).
Proof. unfold slice_indices. cbn. now destruct len. Qed.

(** ** Pages of a listing *)

Lemma page_of_getitem {A} (l : list A) ps i :
  0 < ps ->
  list_getitem (page_of l ps (i / ps)) (i mod ps)
  = if (0 <=? i) && (i <? Z.of_nat (length l)) then l !! Z.to_nat i else None.
Proof.
  intros Hps. pose proof (Z.mod_pos_bound i ps Hps) as Hmod.
  pose proof (Z.div_mod i ps ltac:(lia)) as Hdm.
  unfold list_getitem. destruct (Z.leb_spec 0 (i mod ps)); [|lia].
  unfold page_of. destruct (Z.ltb_spec (i / ps) 0) as [Hneg|Hpos].
  - assert (i < 0) by nia. destruct (Z.leb_spec 0 i); [lia|]. now destruct (Z.to_nat (i mod ps)).
  - assert (0 <= i) by nia. destruct (Z.leb_spec 0 i); [|lia]. cbn [andb].
    rewrite lookup_take_lt by lia. rewrite lookup_drop.
    replace (Z.to_nat (i / ps * ps) + Z.to_nat (i mod ps))%nat with (Z.to_nat i) by nia.
    destruct (Z.ltb_spec i (Z.of_nat (length l))); [reflexivity|].
    apply lookup_ge_None_2. lia.
Qed.

(** ** Ranges and the pages of an iteration *)

Lemma range_from_zero_step (f : nat -> Z) n p :
  (forall k, f k = p + Z.of_nat k) ->
  map f (seq 0 n) = pages_from p n.
Proof.
  revert f p. induction n as [|n IH]; intros f p Hf; [reflexivity|].
  cbn [seq map pages_from]. rewrite Hf, Z.add_0_r. f_equal.
  rewrite <- seq_shift, map_map. apply IH. intros k. rewrite Hf. lia.
Qed.

Lemma py_range_pages start stop :
  py_range start stop 1 = pages_from start (Z.to_nat (stop - start)).
Proof.
  unfold py_range, range_len. cbn [Z.ltb Z.compare].
  rewrite Z.div_1_r.
  replace (Z.to_nat (if start <? stop then stop - start - 1 + 1 else 0))
    with (Z.to_nat (stop - start)) by (destruct (Z.ltb_spec start stop); lia).
  apply range_from_zero_step. intros k. lia.
Qed.


(** [number_of_pages] is the number of pages rounded up. *)
Lemma number_of_pages_ceil len ps :
  0 < ps -> number_of_pages len ps = (len + ps - 1) / ps.
Proof.
  intros Hps. unfold number_of_pages.
  pose proof (Z.mod_pos_bound len ps Hps). pose proof (Z.div_mod len ps ltac:(lia)).
  destruct (Z.ltb_spec 0 (len mod ps)).
  - apply (Z.div_unique _ _ _ (len mod ps - 1)); lia.
  - apply (Z.div_unique _ _ _ (ps - 1)); lia.
Qed.

(** Pages [q], [q+1], ... of a listing, put end to end, are the listing read
    from position [q * ps] on. *)
Lemma concat_pages {A} (l : list A) ps k : forall q : nat,
  0 < ps ->
  concat (map (page_of l ps) (pages_from (Z.of_nat q) k))
  = take (k * Z.to_nat ps) (drop (q * Z.to_nat ps) l).
Proof.
  induction k as [|k IH]; intros q Hps; [reflexivity|].
  cbn [pages_from map concat].
  replace (Z.of_nat q + 1) with (Z.of_nat (S q)) by lia. rewrite IH by assumption.
  unfold page_of. destruct (Z.ltb_spec (Z.of_nat q) 0); [lia|].
  replace (Z.to_nat (Z.of_nat q * ps)) with (q * Z.to_nat ps)%nat by nia.
  replace (S q * Z.to_nat ps)%nat with (q * Z.to_nat ps + Z.to_nat ps)%nat by lia.
  rewrite <- drop_drop. rewrite take_take_drop. f_equal.
Qed.

Lemma yielded_dicts pages : forall future,
  map el_dict (concat (imap (fun j page => yield_page (future + j) page) pages))
  = concat pages.
Proof.
  induction pages as [|page pages IH]; intros future; [reflexivity|].
  rewrite imap_cons. cbn [concat]. rewrite map_app. f_equal.
  - unfold yield_page. rewrite !map_map. cbn. apply map_id.
  - rewrite <- (IH (S future)). do 2 f_equal. apply imap_ext. intros j page' _. cbn.
    f_equal. lia.
Qed.

Lemma yielded_ids (page : list ElemDict) : map get_id (map from_dict page) = map _id page.
Proof. rewrite map_map. reflexivity. Qed.

Section Properties.
Context {Srv : Type} `{!Remote Srv} `{!Config}.
Implicit Types (w : World Srv) (key : Key) (i : Z).


(** C6. Access by an identifier string of at least 8 characters: whatever
    exception the single-element metadata request raises (a remote
    Not-Found, a transport error), [__getitem__] raises the Not-Found
    [KeyError] naming the key, and no other exception ever leaves this
    path. *)
Theorem getitem_identifier_failure_is_not_found w key_s :
  (8 <= String.length key_s)%nat ->
  (forall e, srv_element (w_srv w) (url_prefix (w_self w)) key_s = inl e ->
     fst (__getitem__ (KStr key_s) w) = inl (KeyError (NotFound (KStr key_s)))) /\
  (forall e, fst (__getitem__ (KStr key_s) w) = inl e ->
     e = KeyError (NotFound (KStr key_s)) /\
     exists e', srv_element (w_srv w) (url_prefix (w_self w)) key_s = inl e').
Proof.
  intros Hlen. unfold __getitem__. cbn [key_str].
  assert (Hlt : (String.length key_s <? 8)%nat = false) by (apply Nat.ltb_ge; lia).
  rewrite Hlt. unfold _retrieve_content. run.
  destruct (srv_element (w_srv w) (url_prefix (w_self w)) key_s) as [e0|d] eqn:Hsrv; simpl.
  - split; [reflexivity|]. intros e He. inversion He; subst. split; [reflexivity|]. now exists e0.
  - split; intros e He; [discriminate He|].
    destruct (srv_element_content _ _ _); simpl in He; discriminate He.
Qed.

(** C7 (behaviour of the code). With the stop omitted, [len(self)] is
    called for the stop, then the comparison [key.stop < 0] is evaluated on
    [None] and raises [TypeError]: the access raises for every start, step
    and dataset, and nothing is resolved or requested.  The exception is
    [TypeError] whenever [len] accepts the count, and the exception of
    [len] itself when it does not. *)
Theorem getitem_omitted_stop_raises w start step :
  __getitem__ (KSlice (slice start None step)) w
  = (inl (match len_check (elements_count (w_self w)) with
          | inr _ => TypeError
          | inl e => e
          end), w).
Proof.
  unfold __getitem__. run. unfold slice_indices. cbn.
  now destruct (len_check (elements_count (w_self w))).
Qed.

(** C8 (amended). [ds[0:0]] is the empty range: it resolves no index,
    sends no request and raises the Not-Found [KeyError], whatever the
    length of the dataset. *)
Theorem getitem_zero_stop_not_found w :
  __getitem__ (KSlice (slice (Some 0) (Some 0) None)) w
  = (inl (KeyError (NotFound (KSlice (slice (Some 0) (Some 0) None)))), w).
Proof.
  unfold __getitem__. run. unfold segments. destruct (0 <? page_size (w_self w)); reflexivity.
Qed.

(** ** The key resolver *)

(** What [_get_key] answers when the service lists page [key_index // ps]
    and the cache, if it is used, agrees with the service. *)
Lemma get_key_answer w i page :
  page_size (w_self w) <> 0 ->
  cache_coherent w ->
  srv_elements_page (w_srv w) (url_prefix (w_self w)) (i / page_size (w_self w)) = inr page ->
  fst (_get_key i w)
  = match list_getitem page (i mod page_size (w_self w)) with
    | Some d => inr (_id d)
    | None => inl IndexError
    end.
Proof.
  intros Hps Hcoh Hsrv. unfold _get_key. run.
  apply Z.eqb_neq in Hps. rewrite Hps.
  destruct (CACHE_TIME <? w_clock w - last_cache_time (w_self w)); simpl.
  - rewrite lookup_empty. simpl. rewrite Hsrv. simpl.
    now destruct (list_getitem page _).
  - destruct (page_cache (w_self w) !! (i / page_size (w_self w))) as [cached|] eqn:Hc; simpl.
    + apply Hcoh in Hc. rewrite Hsrv in Hc. inversion Hc; subst.
      now destruct (list_getitem cached _).
    + rewrite Hsrv. simpl. now destruct (list_getitem page _).
Qed.

(** What [_get_key] answers, whatever the cache and the service: the
    identifier at offset [key_index % ps] of the page in use for
    [key_index // ps]. *)
Lemma get_key_reads w i :
  page_size (w_self w) <> 0 ->
  fst (_get_key i w)
  = match page_in_use w (i / page_size (w_self w)) with
    | inr page =>
        match list_getitem page (i mod page_size (w_self w)) with
        | Some d => inr (_id d)
        | None => inl IndexError
        end
    | inl e => inl e
    end.
Proof.
  intros Hps. unfold _get_key, page_in_use. run.
  apply Z.eqb_neq in Hps. rewrite Hps.
  destruct (CACHE_TIME <? w_clock w - last_cache_time (w_self w)); simpl.
  - rewrite lookup_empty. simpl.
    destruct (srv_elements_page _ _ _) as [e|page]; simpl; [reflexivity|].
    now destruct (list_getitem page _).
  - destruct (page_cache (w_self w) !! (i / page_size (w_self w))) as [cached|]; simpl.
    + now destruct (list_getitem cached _).
    + destruct (srv_elements_page _ _ _) as [e|page]; simpl; [reflexivity|].
      now destruct (list_getitem page _).
Qed.

(** C3 (amended). [_get_key i] reads offset [i mod ps] of the page in use
    for page number [i div ps] (the cached entry while the cache has not
    expired and holds one, otherwise the page it requests) and returns the
    identifier found there; it raises [IndexError] when that page has no
    such offset and the request's exception when the request fails, and
    never compares [i] with the length.  On a service that lists the
    dataset [l] page by page (the empty list for a page that does not
    exist), with a cache that agrees with it, this is the identifier of the
    [i]-th element for [0 <= i < length l], and [IndexError] for any other
    [i]. *)
Theorem get_key_resolves w i :
  0 < page_size (w_self w) ->
  let ps := page_size (w_self w) in
  fst (_get_key i w)
  = match page_in_use w (i / ps) with
    | inr page =>
        match list_getitem page (i mod ps) with
        | Some d => inr (_id d)
        | None => inl IndexError
        end
    | inl e => inl e
    end /\
  forall l : list ElemDict,
    serves (w_srv w) (url_prefix (w_self w)) ps l ->
    cache_coherent w ->
    (0 <= i < Z.of_nat (length l) ->
       exists d,
         list_getitem (page_of l ps (i / ps)) (i mod ps) = Some d /\
         l !! Z.to_nat i = Some d /\
         fst (_get_key i w) = inr (_id d)) /\
    (~ 0 <= i < Z.of_nat (length l) -> fst (_get_key i w) = inl IndexError).
Proof.
  intros Hps ps. split; [apply get_key_reads; lia|].
  intros l Hsrv Hcoh.
  rewrite (get_key_answer w i _ ltac:(lia) Hcoh (Hsrv _)).
  fold ps. rewrite page_of_getitem by assumption.
  split; intros Hi.
  - destruct (Z.leb_spec 0 i); [|lia]. destruct (Z.ltb_spec i (Z.of_nat (length l))); [|lia].
    cbn [andb]. destruct (lookup_lt_is_Some_2 l (Z.to_nat i) ltac:(lia)) as [d Hd].
    exists d. now rewrite Hd.
  - destruct (Z.leb_spec 0 i), (Z.ltb_spec i (Z.of_nat (length l))); try reflexivity. lia.
Qed.

(** C4. A resolve made when more than [CACHE_TIME] has passed since
    [last_cache_time] sends a page request for the page of the index, even
    if that page was cached, and leaves no older entry in the cache: the
    only entry it can hold afterwards is the page just fetched. *)
Theorem get_key_expired_cache w i :
  page_size (w_self w) <> 0 ->
  CACHE_TIME < w_clock w - last_cache_time (w_self w) ->
  let key_page := i / page_size (w_self w) in
  let fetched := srv_elements_page (w_srv w) (url_prefix (w_self w)) key_page in
  let w' := snd (_get_key i w) in
  w_requests w' = w_requests w ++ [GetElementsPage (url_prefix (w_self w)) key_page] /\
  page_cache (w_self w')
  = match fetched with
    | inr page => {[ key_page := page ]}
    | inl _ => ∅
    end /\
  (forall q page, page_cache (w_self w') !! q = Some page -> q = key_page /\ fetched = inr page).
Proof.
  intros Hps Hexp key_page fetched w'.
  assert (Hw' : w_requests w' = w_requests w ++ [GetElementsPage (url_prefix (w_self w)) key_page] /\
                page_cache (w_self w')
                = match fetched with inr page => {[ key_page := page ]} | inl _ => ∅ end).
  { subst w' fetched key_page. unfold _get_key. run.
    apply Z.eqb_neq in Hps. rewrite Hps.
    apply Z.ltb_lt in Hexp. rewrite Hexp. simpl. rewrite lookup_empty. simpl.
    destruct (srv_elements_page _ _ _) as [e|page]; simpl; [now split|].
    destruct (list_getitem page _); simpl; now split. }
  destruct Hw' as [Hreq Hcache]. split; [exact Hreq|]. split; [exact Hcache|].
  intros q page. rewrite Hcache. destruct fetched as [e|page'].
  - rewrite lookup_empty. discriminate.
  - intros [-> ->]%lookup_singleton_Some. now split.
Qed.

(** ** Segment jobs *)

(** However the identifiers are cut into segments, the job submitted for
    each segment is [_request_segment ids], on the whole list: as many
    metadata requests as there are segments, each for all of [ids]. *)
Lemma segment_jobs_request_whole_list (ids : list string) (segs : list (list string)) : forall w,
  let w' := snd (for_each (fun segment => pool_keys_submit (_request_segment ids)) segs w) in
  bundle_requests (w_requests w') = bundle_requests (w_requests w) ++ replicate (length segs) ids /\
  w_self w' = w_self w /\ w_srv w' = w_srv w.
Proof.
  induction segs as [|segment segs IH]; intros w.
  - cbn. now rewrite app_nil_r.
  - cbn [for_each length replicate]. unfold _request_segment, _retrieve_segment_contents. run.
    destruct (srv_bundle (w_srv w) (url_prefix (w_self w)) ids) as [e|results]; simpl;
      [|destruct (srv_content (w_srv w) (url_prefix (w_self w)) ids) as [e|packet]; simpl];
      match goal with
      | |- context [for_each _ segs ?w1] =>
          destruct (IH w1) as (Hreq & Hself & Hsrv);
          destruct (for_each _ segs w1) as [[e'|futures] w2]
      end;
      cbn [snd] in *; unfold sent in *;
      cbn [w_srv w_self w_requests w_futures w_clock w_files] in *;
      (split; [|split; assumption]);
      rewrite Hreq; unfold bundle_requests; rewrite ?omap_app; cbn;
      rewrite <- ?app_assoc; cbn; rewrite ?app_nil_r; reflexivity.
Qed.

(** ** Ordered iteration *)

(** A page job: one page request, whose answer (elements, or the exception)
    is the future's. *)
Lemma get_elements_submitted q w :
  pool_keys_submit (_get_elements q) w
  = (inr (match srv_elements_page (w_srv w) (url_prefix (w_self w)) q with
          | inr dicts => inr (map from_dict dicts)
          | inl e => inl e
          end),
     sent (GetElementsPage (url_prefix (w_self w)) q) (w_srv w) w).
Proof. unfold _get_elements. run. now destruct (srv_elements_page _ _ _). Qed.

(** The rounds of the loop from page [p] on, with the future of page [p]
    in [buffer]: in each round the next page is requested, one content job
    is submitted for the page at hand, and its elements are yielded with
    that job's future.  Only the [k] pages walked need be listed by the
    service: the future of page [p + k], requested in the last round, is
    never asked for its result. *)
Lemma iter_pages_buffered (l : list ElemDict) k : forall p w b,
  (forall q, p < q < p + Z.of_nat k ->
     srv_elements_page (w_srv w) (url_prefix (w_self w)) q
     = inr (page_of l (page_size (w_self w)) q)) ->
  ((0 < k)%nat -> b = inr (map from_dict (page_of l (page_size (w_self w)) p))) ->
  let pages := map (page_of l (page_size (w_self w))) (pages_from p k) in
  exists w' new,
    iter_pages (pages_from p k) (Some b) w
    = (inr (concat (imap (fun j page => yield_page (length (w_futures w) + j) page) pages)), w') /\
    w_srv w' = w_srv w /\
    w_self w' = w_self w /\
    w_requests w' = w_requests w ++ new /\
    page_requests new = pages_from (p + 1) k /\
    content_requests new = map (map _id) pages /\
    w_futures w'
    = w_futures w
      ++ map (fun page => content_outcome (w_srv w) (url_prefix (w_self w)) (map _id page)) pages.
Proof.
  induction k as [|k IH]; intros p w b Hsrv Hb pages.
  - exists w, []. cbn. rewrite !app_nil_r. repeat split; reflexivity.
  - subst pages. cbn [pages_from map iter_pages].
    rewrite (Hb ltac:(lia)).
    unfold _get_elements, _retrieve_segment_contents. run.
    rewrite yielded_ids.
    set (page := page_of l (page_size (w_self w)) p).
    unfold content_outcome.
    destruct (srv_elements_page (w_srv w) (url_prefix (w_self w)) (p + 1)) as [e1|next] eqn:Hnext;
      simpl;
      destruct (srv_content (w_srv w) (url_prefix (w_self w)) (map _id page)) as [e|packet];
      unfold sent; cbn [w_srv w_self w_requests w_futures w_clock w_files];
      match goal with
      | |- context [iter_pages _ (Some ?b2) ?w2] =>
          assert (Hb2 : (0 < k)%nat ->
                        b2 = inr (map from_dict (page_of l (page_size (w_self w)) (p + 1))))
            by (intros Hk; pose proof (Hsrv (p + 1) ltac:(lia)) as Hp1;
                rewrite Hnext in Hp1; inversion Hp1; reflexivity);
          destruct (IH (p + 1) w2 b2 (fun q Hq => Hsrv q ltac:(lia)) Hb2)
            as (w' & new & Hrun & Hs & Hself & Hreq & Hpg & Hct & Hfut)
      end;
      cbn [w_srv w_self w_requests w_futures w_clock w_files] in *;
      exists w', ([GetElementsPage (url_prefix (w_self w)) (p + 1);
                   GetContent (url_prefix (w_self w)) (map _id page)] ++ new);
      rewrite Hrun; cbn [concat];
      (split;
       [ do 3 f_equal;
         [ rewrite Nat.add_0_r; reflexivity
         | f_equal; apply imap_ext; intros j pg _; cbn; rewrite length_app; cbn; f_equal; lia ]
       | split; [exact Hs|]; split; [exact Hself|];
         split; [rewrite Hreq, <- !app_assoc; reflexivity|];
         split; [unfold page_requests in *; cbn; rewrite Hpg; reflexivity|];
         split; [unfold content_requests in *; cbn; rewrite Hct; reflexivity|];
         rewrite Hfut, <- app_assoc; reflexivity ]).
Qed.

(** The first round has no page in [buffer] and requests it itself. *)
Lemma iter_pages_unbuffered p pages w :
  iter_pages (p :: pages) None w
  = match pool_keys_submit (_get_elements p) w with
    | (inr b, w1) => iter_pages (p :: pages) (Some b) w1
    | (inl e, w1) => (inl e, w1)
    end.
Proof. reflexivity. Qed.

(** The whole loop over pages [0] to [k - 1], from the first request on. *)
Lemma iter_pages_run (l : list ElemDict) k w :
  (forall q, 0 <= q < Z.of_nat k ->
     srv_elements_page (w_srv w) (url_prefix (w_self w)) q
     = inr (page_of l (page_size (w_self w)) q)) ->
  let pages := map (page_of l (page_size (w_self w))) (pages_from 0 k) in
  exists w' new,
    iter_pages (pages_from 0 k) None w
    = (inr (concat (imap (fun j page => yield_page (length (w_futures w) + j) page) pages)), w') /\
    w_requests w' = w_requests w ++ new /\
    page_requests new = match k with O => [] | S _ => pages_from 0 (S k) end /\
    content_requests new = map (map _id) pages /\
    w_futures w'
    = w_futures w
      ++ map (fun page => content_outcome (w_srv w) (url_prefix (w_self w)) (map _id page)) pages.
Proof.
  intros Hsrv pages. destruct k as [|k].
  - exists w, []. cbn. rewrite !app_nil_r. repeat split; reflexivity.
  - subst pages. change (pages_from 0 (S k)) with (0 :: pages_from (0 + 1) k) at 1.
    rewrite iter_pages_unbuffered, get_elements_submitted, (Hsrv 0 ltac:(lia)).
    change (0 :: pages_from (0 + 1) k) with (pages_from 0 (S k)).
    set (w1 := sent (GetElementsPage (url_prefix (w_self w)) 0) (w_srv w) w).
    destruct (iter_pages_buffered l (S k) 0 w1
                (inr (map from_dict (page_of l (page_size (w_self w)) 0)))
                (fun q Hq => Hsrv q ltac:(lia)) (fun _ => eq_refl))
      as (w' & new & Hrun & _ & _ & Hreq & Hpg & Hct & Hfut).
    subst w1. unfold sent in Hreq, Hct, Hfut, Hrun |- *.
    cbn [w_srv w_self w_requests w_futures w_clock w_files] in Hreq, Hct, Hfut, Hrun |- *.
    exists w', ([GetElementsPage (url_prefix (w_self w)) 0] ++ new).
    split; [exact Hrun|].
    split; [rewrite Hreq, <- app_assoc; reflexivity|].
    split; [unfold page_requests in *; cbn; rewrite Hpg; reflexivity|].
    split; [exact Hct|exact Hfut].
Qed.


(** ** Mutations and the page cache *)

Lemma keeps_cache_refl w : keeps_cache w w.
Proof. repeat split. Qed.

Lemma keeps_cache_self w w' : w_self w' = w_self w -> keeps_cache w w'.
Proof. intros E. unfold keeps_cache. rewrite E. repeat split. Qed.

Lemma keeps_cache_trans w1 w2 w3 : keeps_cache w1 w2 -> keeps_cache w2 w3 -> keeps_cache w1 w3.
Proof. unfold keeps_cache. intros (?&?&?) (?&?&?). repeat split; congruence. Qed.

(** Sequencing: the continuation is only run on what the first part
    returned. *)
Lemma keeps_cache_bind {A B} (m : M Srv A) (k : A -> M Srv B) w :
  keeps_cache w (snd (m w)) ->
  (forall a w1, m w = (inr a, w1) -> keeps_cache w1 (snd (k a w1))) ->
  keeps_cache w (snd (bind m k w)).
Proof.
  intros Hm Hk. unfold bind. destruct (m w) as [[e|a] w1] eqn:E; [exact Hm|].
  eapply keeps_cache_trans; [exact Hm|]. now apply Hk.
Qed.

(** [refresh] assigns the counts and the descriptive fields only. *)
Lemma refresh_keeps_cache w : keeps_cache w (snd (refresh w)).
Proof.
  unfold refresh. run. destruct (srv_dataset _ _); repeat split.
Qed.

Lemma delitem_keeps_cache (key : string) w : keeps_cache w (snd (__delitem__ key w)).
Proof.
  unfold __delitem__. apply keeps_cache_bind; [apply keeps_cache_refl|]. intros prefix w1 _.
  apply keeps_cache_bind; [|intros; apply refresh_keeps_cache].
  unfold request_upd. destruct (srv_delete_element _ _ _). apply keeps_cache_self. reflexivity.
Qed.

(** Access by identifier does not touch the fields of [self]. *)
Lemma getitem_identifier_keeps_self key_s w :
  (8 <= String.length key_s)%nat ->
  w_self (snd (__getitem__ (KStr key_s) w)) = w_self w.
Proof.
  intros Hlen. unfold __getitem__. cbn [key_str].
  assert (Hlt : (String.length key_s <? 8)%nat = false) by (apply Nat.ltb_ge; lia).
  rewrite Hlt. unfold _retrieve_content. run.
  destruct (srv_element _ _ _); simpl; [reflexivity|].
  destruct (srv_element_content _ _ _); reflexivity.
Qed.

Lemma add_element_keeps_cache new_title new_description new_tags http_ref content interpret w :
  (forall id s',
     srv_post_element (w_srv w) (url_prefix (w_self w))
       {| new_title := new_title; new_description := new_description;
          new_tags := new_tags; new_http_ref := http_ref |} = (inr id, s') ->
     (8 <= String.length id)%nat) ->
  keeps_cache w
    (snd (add_element new_title new_description new_tags http_ref content interpret w)).
Proof.
  intros Hlong. unfold add_element.
  apply keeps_cache_bind.
  { destruct content as [path|b]; [|apply keeps_cache_refl].
    run. destruct (w_files w !! path); apply keeps_cache_refl. }
  intros content' w1 Hcontent.
  assert (Ew1 : w1 = w).
  { destruct content as [path|b]; revert Hcontent; run;
      [destruct (w_files w !! path)|]; intros E; now inversion E. }
  subst w1.
  apply keeps_cache_bind; [apply keeps_cache_refl|]. intros prefix w2 Hprefix.
  inversion Hprefix; subst. clear Hprefix.
  apply keeps_cache_bind.
  { unfold request_upd. destruct (srv_post_element _ _ _). apply keeps_cache_self. reflexivity. }
  intros created w3 Hpost.
  assert (Hcreated : (8 <= String.length created)%nat).
  { revert Hpost. unfold request_upd.
    destruct (srv_post_element _ _ _) as [r s'] eqn:E. intros E'. inversion E'; subst.
    eapply Hlong. reflexivity. }
  apply keeps_cache_bind; [apply refresh_keeps_cache|]. intros _ w4 _.
  apply keeps_cache_bind.
  { apply keeps_cache_self. now apply getitem_identifier_keeps_self. }
  intros [element|elements] w5 _; [|apply keeps_cache_refl].
  apply keeps_cache_bind; [apply keeps_cache_refl|]. intros prefix' w6 Hprefix.
  inversion Hprefix; subst. clear Hprefix.
  apply keeps_cache_bind; [|intros; apply keeps_cache_refl].
  unfold request_upd. destruct (srv_put_content _ _ _ _ _). apply keeps_cache_self. reflexivity.
Qed.

(** Within the time-to-live, a cached page answers the resolve: nothing is
    requested and nothing changes. *)
Lemma cached_page_is_used w i page :
  page_size (w_self w) <> 0 ->
  w_clock w - last_cache_time (w_self w) <= CACHE_TIME ->
  page_cache (w_self w) !! (i / page_size (w_self w)) = Some page ->
  _get_key i w
  = (match list_getitem page (i mod page_size (w_self w)) with
     | Some d => inr (_id d)
     | None => inl IndexError
     end, w).
Proof.
  intros Hps Hfresh Hpage. unfold _get_key. run.
  apply Z.eqb_neq in Hps. rewrite Hps.
  destruct (Z.ltb_spec CACHE_TIME (w_clock w - last_cache_time (w_self w))); [lia|].
  simpl. rewrite Hpage. simpl. now destruct (list_getitem page _).
Qed.

(** C9 (amended). [__delitem__] and [add_element] force a metadata
    [refresh], which rewrites the counts and the descriptive fields only:
    the page cache and its timestamp come out of the mutation as they went
    in ([add_element]: when the service's identifiers have at least 8
    characters, so that the new element is fetched by identifier).  A page
    cached before the mutation therefore still answers a resolve made
    afterwards within the time-to-live, without any request. *)
Theorem mutation_keeps_page_cache w :
  (forall key : string, keeps_cache w (snd (__delitem__ key w))) /\
  (forall new_title new_description new_tags http_ref content interpret,
     (forall id s',
        srv_post_element (w_srv w) (url_prefix (w_self w))
          {| new_title := new_title; new_description := new_description;
             new_tags := new_tags; new_http_ref := http_ref |} = (inr id, s') ->
        (8 <= String.length id)%nat) ->
     keeps_cache w
       (snd (add_element new_title new_description new_tags http_ref content interpret w))) /\
  (forall w' i page,
     keeps_cache w w' ->
     page_size (w_self w) <> 0 ->
     page_cache (w_self w) !! (i / page_size (w_self w)) = Some page ->
     w_clock w' - last_cache_time (w_self w) <= CACHE_TIME ->
     _get_key i w'
     = (match list_getitem page (i mod page_size (w_self w)) with
        | Some d => inr (_id d)
        | None => inl IndexError
        end, w')).
Proof.
  split; [intros key; apply delitem_keeps_cache|].
  split; [intros; now apply add_element_keeps_cache|].
  intros w' i page (Hc & Ht & Hp) Hps Hpage Hfresh.
  rewrite <- Hp, <- Hc in Hpage. rewrite <- Ht in Hfresh. rewrite <- Hp in Hps |- *.
  now apply cached_page_is_used.
Qed.
End Properties.

(** ** The scenario of the spec, run *)

Example segments_of_three : segments ["b"; "c"; "d"] 2 = [["b"; "c"]; ["d"]].
Proof. reflexivity. Qed.

Example getitem_by_index : returned_ids (fst (__getitem__ (KInt 2) scenario)) = inr ["c"].
Proof. reflexivity. Qed.

Example getitem_by_short_string : returned_ids (fst (__getitem__ (KStr "2") scenario)) = inr ["c"].
Proof. reflexivity. Qed.

Example getitem_one_segment :
  returned_ids (fst (__getitem__ (py_slice 1 3) scenario)) = inr ["b"; "c"].
Proof. reflexivity. Qed.

Example int_of_str_examples :
  map int_of_str [" 12 "; "+1_0"; "-007"; "1__0"; "12a"; "abc"; ""; "-"]
  = [Some 12; Some 10; Some (-7); None; None; None; None; None].
Proof. reflexivity. Qed.

(** A tab is whitespace for [int]; the unit separator (code 31) is not. *)
Example int_of_str_control_codes :
  int_of_str (String (ascii_of_nat 9) "2") = Some 2 /\
  int_of_str (String (ascii_of_nat 31) "2") = None /\
  int_of_str (String "2" (String (ascii_of_nat 28) "")) = None.
Proof. repeat split. Qed.

(** C1 (behaviour of the code). [ds[1:4]] in the scenario resolves
    [b, c, d] and cuts them into the segments [[b, c]] and [[d]], but each of
    the two segment jobs is given the whole list: both metadata requests and
    both content requests carry the three identifiers, more than the
    Page-Size of 2, and every identifier is requested twice. *)
Theorem getitem_segment_jobs_get_whole_list :
  let w' := snd (__getitem__ (py_slice 1 4) scenario) in
  page_size (w_self scenario) = 2 /\
  segments ["b"; "c"; "d"] (page_size (w_self scenario)) = [["b"; "c"]; ["d"]] /\
  bundle_requests (w_requests w') = [["b"; "c"; "d"]; ["b"; "c"; "d"]] /\
  content_requests (w_requests w') = [["b"; "c"; "d"]; ["b"; "c"; "d"]].
Proof. vm_compute. repeat split. Qed.

(** C2 (behaviour of the code). [ds[1:4]] in the scenario returns six
    elements, the three requested ones once per segment, although the
    service answers every bundle in the order asked. *)
Theorem getitem_returns_whole_list_per_segment :
  returned_ids (fst (__getitem__ (py_slice 1 4) scenario))
  = inr ["b"; "c"; "d"; "b"; "c"; "d"].
Proof. reflexivity. Qed.

(** With one segment only, the elements come back in the order of the
    service's answer, not of the indices. *)
Example getitem_follows_answer_order :
  returned_ids (fst (__getitem__ (py_slice 1 4) scenario_reversed)) = inr ["d"; "c"; "b"].
Proof. reflexivity. Qed.


(** C8 (the claim fails as stated). On a dataset of length 10, [ds[0:0]]
    raises the Not-Found [KeyError] while [ds[0:10]] returns the ten
    elements. *)
Lemma getitem_zero_stop_is_not_full_range :
  elements_count (w_self decade) = 10 /\
  fst (__getitem__ (py_slice 0 0) decade) = inl (KeyError (NotFound (py_slice 0 0))) /\
  returned_ids (fst (__getitem__ (py_slice 0 10) decade))
  = inr ["e0"; "e1"; "e2"; "e3"; "e4"; "e5"; "e6"; "e7"; "e8"; "e9"] /\
  fst (__getitem__ (py_slice 0 0) decade) <> fst (__getitem__ (py_slice 0 10) decade).
Proof. vm_compute. repeat split. discriminate. Qed.

(** C9 (the claim fails as stated). Page 0, [[a, b]], is cached; [b] is
    deleted, which succeeds and refreshes the count to 1; the service now
    lists [[a]] as page 0, yet the next resolve of index 1 answers [b] from
    the entry cached before the deletion, without sending anything. *)
Lemma delitem_leaves_cached_page_in_use :
  let w1 := snd (__delitem__ "b" pair_cached) in
  page_cache (w_self pair_cached) !! 0 = Some (map fst [el "a"; el "b"]) /\
  fst (__delitem__ "b" pair_cached) = inr tt /\
  elements_count (w_self w1) = 1 /\
  srv_elements_page (w_srv w1) (url_prefix (w_self w1)) 0 = inr (map fst [el "a"]) /\
  fst (_get_key 1 w1) = inr "b" /\
  w_requests (snd (_get_key 1 w1)) = w_requests w1.
Proof. vm_compute. repeat split. Qed.

(** C3 (the claim fails as stated). After the deletion of [b] the dataset
    has one element, [a], which the service lists as page 0; index 1 is
    outside [0 <= i < 1], yet its resolve fails with no error: it returns
    [b], read from the page cached before the deletion. *)
Lemma get_key_answers_out_of_range :
  let w1 := snd (__delitem__ "b" pair_cached) in
  elements_count (w_self w1) = 1 /\
  serves (w_srv w1) (url_prefix (w_self w1)) (page_size (w_self w1)) (map fst [el "a"]) /\
  ~ (0 <= 1 < Z.of_nat (length (map fst [el "a"]))) /\
  fst (_get_key 1 w1) = inr "b".
Proof.
  cbv zeta. split; [reflexivity|]. split; [intros p; reflexivity|].
  split; [cbn; lia|reflexivity].
Qed.

(** On a service that refuses a page beyond the end, an index that would
    lie on such a page fails with the exception of the page request. *)
Example get_key_beyond_the_end :
  fst (_get_key 5 scenario_strict) = inl IndexError /\
  fst (_get_key 6 scenario_strict) = inl (RequestError 404).
Proof. split; reflexivity. Qed.

Example getitem_open_ended_slice :
  __getitem__ (KSlice (slice (Some 2) None None)) scenario = (inl TypeError, scenario).
Proof. reflexivity. Qed.

(** ** The theorems at work on the scenario *)

Lemma get_key_resolves_scenario :
  fst (_get_key 3 scenario) = inr "d" /\
  (exists d,
     list_getitem (page_of (map fst (map el abcde)) 2 (3 / 2)) (3 mod 2) = Some d /\
     map fst (map el abcde) !! Z.to_nat 3 = Some d /\
     fst (_get_key 3 scenario) = inr (_id d)) /\
  fst (_get_key 5 scenario) = inl IndexError /\
  fst (_get_key (-1) scenario) = inl IndexError.
Proof.
  assert (Hps : 0 < page_size (w_self scenario)) by reflexivity.
  assert (Hsrv : serves (w_srv scenario) (url_prefix (w_self scenario))
                   (page_size (w_self scenario)) (map fst (map el abcde)))
    by (intros p; reflexivity).
  assert (Hcoh : cache_coherent scenario)
    by (intros p page; cbn; rewrite lookup_empty; discriminate).
  split; [|split; [|split]].
  - exact (proj1 (get_key_resolves scenario 3 Hps)).
  - apply (proj2 (get_key_resolves scenario 3 Hps) (map fst (map el abcde)) Hsrv Hcoh). cbn. lia.
  - apply (proj2 (get_key_resolves scenario 5 Hps) (map fst (map el abcde)) Hsrv Hcoh). cbn. lia.
  - apply (proj2 (get_key_resolves scenario (-1) Hps) (map fst (map el abcde)) Hsrv Hcoh). cbn. lia.
Defined.

Lemma get_key_expired_cache_scenario :
  let w := elapse 100 scenario_cached in
  let key_page := 1 / page_size (w_self w) in
  let fetched := srv_elements_page (w_srv w) (url_prefix (w_self w)) key_page in
  let w' := snd (_get_key 1 w) in
  (page_size (w_self w) = 2 /\ w_clock w - last_cache_time (w_self w) = 100 /\
   CACHE_TIME = 60 /\ page_cache (w_self w) !! 0 = Some (map fst [el "a"; el "b"])) /\
  w_requests w' = w_requests w ++ [GetElementsPage (url_prefix (w_self w)) key_page] /\
  page_cache (w_self w')
  = match fetched with
    | inr page => {[ key_page := page ]}
    | inl _ => ∅
    end /\
  (forall q page, page_cache (w_self w') !! q = Some page -> q = key_page /\ fetched = inr page).
Proof.
  intros w key_page fetched w'. split; [vm_compute; repeat split|].
  apply (get_key_expired_cache (elapse 100 scenario_cached) 1).
  - discriminate.
  - reflexivity.
Defined.


Lemma getitem_identifier_failure_scenario :
  (forall e,
     srv_element (w_srv scenario) (url_prefix (w_self scenario)) "no-such-element" = inl e ->
     fst (__getitem__ (KStr "no-such-element") scenario)
     = inl (KeyError (NotFound (KStr "no-such-element")))) /\
  (forall e,
     fst (__getitem__ (KStr "no-such-element") scenario) = inl e ->
     e = KeyError (NotFound (KStr "no-such-element")) /\
     exists e',
       srv_element (w_srv scenario) (url_prefix (w_self scenario)) "no-such-element" = inl e').
Proof.
  apply (getitem_identifier_failure_is_not_found scenario "no-such-element").
  cbn. lia.
Defined.


Lemma mutation_keeps_page_cache_pair :
  let deleted := snd (__delitem__ "b" pair_cached) in
  let added := snd (add_element "f" "" [] "" (inr []) true pair_cached) in
  keeps_cache pair_cached deleted /\
  keeps_cache pair_cached added /\
  _get_key 1 deleted = (inr "b", deleted) /\
  _get_key 1 added = (inr "b", added).
Proof.
  intros deleted added.
  destruct (mutation_keeps_page_cache pair_cached) as (Hdel & Hadd & Huse).
  assert (Hlong : forall id s',
             srv_post_element (w_srv pair_cached) (url_prefix (w_self pair_cached))
               {| new_title := "f"; new_description := ""; new_tags := []; new_http_ref := "" |}
             = (inr id, s') ->
             (8 <= String.length id)%nat).
  { intros id s' E. vm_compute in E. inversion E; subst. cbn. lia. }
  assert (Hpage : page_cache (w_self pair_cached) !! (1 / page_size (w_self pair_cached))
                  = Some (map fst [el "a"; el "b"])) by reflexivity.
  assert (Hps : page_size (w_self pair_cached) <> 0) by discriminate.
  split; [apply Hdel|]. split; [apply Hadd, Hlong|]. split.
  - apply (Huse deleted 1 _ (Hdel "b") Hps Hpage). vm_compute. discriminate.
  - apply (Huse added 1 _ (Hadd _ _ _ _ _ _ Hlong) Hps Hpage). vm_compute. discriminate.
Defined.

(** * Further properties of the methods *)

Lemma requests_of_pages_page prefix pages :
  page_requests (map (GetElementsPage prefix) pages) = pages.
Proof. induction pages as [|q pages IH]; [reflexivity|]. cbn. f_equal. exact IH. Qed.

Lemma requests_of_pages_bundle prefix pages :
  bundle_requests (map (GetElementsPage prefix) pages) = [].
Proof. induction pages as [|q pages IH]; [reflexivity|exact IH]. Qed.

Lemma requests_of_pages_content prefix pages :
  content_requests (map (GetElementsPage prefix) pages) = [].
Proof. induction pages as [|q pages IH]; [reflexivity|exact IH]. Qed.

Section Resolver.
Context {Srv : Type} `{!Remote Srv} `{!Config}.
Implicit Types (w : World Srv) (i : Z).

Lemma only_resolved_refl w : only_resolved [] w w.
Proof.
  exists (page_cache (w_self w)), (last_cache_time (w_self w)), 0.
  destruct w as [s [] rs fs c fl]. cbn. now rewrite app_nil_r, Z.add_0_r.
Qed.

Lemma only_resolved_trans pages pages' w1 w2 w3 :
  only_resolved pages w1 w2 -> only_resolved pages' w2 w3 ->
  only_resolved (pages ++ pages') w1 w3.
Proof.
  intros (c & t & dt & ->) (c' & t' & dt' & ->). exists c', t', (dt + dt').
  cbn. now rewrite map_app, <- app_assoc, Z.add_assoc.
Qed.

(** What the resolver leaves alone. *)
Lemma only_resolved_frame pages w w' :
  only_resolved pages w w' ->
  w_srv w' = w_srv w /\ w_futures w' = w_futures w /\ w_files w' = w_files w /\
  url_prefix (w_self w') = url_prefix (w_self w) /\
  page_size (w_self w') = page_size (w_self w) /\
  elements_count (w_self w') = elements_count (w_self w) /\
  binary_interpreter (w_self w') = binary_interpreter (w_self w) /\
  bundle_requests (w_requests w') = bundle_requests (w_requests w) /\
  content_requests (w_requests w') = content_requests (w_requests w) /\
  page_requests (w_requests w') = page_requests (w_requests w) ++ pages.
Proof.
  intros (c & t & dt & ->). cbn. repeat (split; [reflexivity|]).
  unfold bundle_requests, content_requests, page_requests. rewrite !omap_app.
  fold (bundle_requests (map (GetElementsPage (url_prefix (w_self w))) pages)).
  fold (content_requests (map (GetElementsPage (url_prefix (w_self w))) pages)).
  fold (page_requests (map (GetElementsPage (url_prefix (w_self w))) pages)).
  rewrite requests_of_pages_bundle, requests_of_pages_content, requests_of_pages_page, !app_nil_r.
  repeat split.
Qed.

(** The resolve of [i] when the page of [i] is not to be had from the cache
    (the cache has expired, or has no entry for the page) and the service
    answers: the page is requested, stored, and the timestamp is the time
    after the request. *)
Lemma get_key_miss w i page :
  page_size (w_self w) <> 0 ->
  let key_page := i / page_size (w_self w) in
  let kept := if CACHE_TIME <? w_clock w - last_cache_time (w_self w)
              then ∅ else page_cache (w_self w) in
  kept !! key_page = None ->
  srv_elements_page (w_srv w) (url_prefix (w_self w)) key_page = inr page ->
  _get_key i w
  = (match list_getitem page (i mod page_size (w_self w)) with
     | Some d => inr (_id d)
     | None => inl IndexError
     end,
     mkWorld (w_srv w)
       (set_last_cache_time (w_clock w + srv_round_trip (w_srv w))
          (set_page_cache (<[key_page := page]> kept) (w_self w)))
       (w_requests w ++ [GetElementsPage (url_prefix (w_self w)) key_page])
       (w_futures w) (w_clock w + srv_round_trip (w_srv w)) (w_files w)).
Proof.
  intros Hps key_page kept Hkept Hsrv. subst key_page kept. unfold _get_key. run.
  apply Z.eqb_neq in Hps. rewrite Hps.
  destruct (CACHE_TIME <? w_clock w - last_cache_time (w_self w)); simpl in *;
    rewrite Hkept; simpl; rewrite Hsrv; simpl;
    destruct (list_getitem page _); reflexivity.
Qed.

(** The same when the service fails the request: the exception is the
    caller's, and nothing is stored. *)
Lemma get_key_miss_fails w i e :
  page_size (w_self w) <> 0 ->
  let key_page := i / page_size (w_self w) in
  let kept := if CACHE_TIME <? w_clock w - last_cache_time (w_self w)
              then ∅ else page_cache (w_self w) in
  kept !! key_page = None ->
  srv_elements_page (w_srv w) (url_prefix (w_self w)) key_page = inl e ->
  fst (_get_key i w) = inl e /\
  page_cache (w_self (snd (_get_key i w))) = kept /\
  last_cache_time (w_self (snd (_get_key i w))) = last_cache_time (w_self w).
Proof.
  intros Hps key_page kept Hkept Hsrv. subst key_page kept. unfold _get_key. run.
  apply Z.eqb_neq in Hps. rewrite Hps.
  destruct (CACHE_TIME <? w_clock w - last_cache_time (w_self w)); simpl in *;
    rewrite Hkept; simpl; rewrite Hsrv; simpl; repeat split.
Qed.

Lemma get_key_step_footprint w i :
  exists pages,
    only_resolved pages w (snd (_get_key i w)) /\
    (pages = [] \/ pages = [i / page_size (w_self w)]) /\
    (cache_coherent w -> cache_coherent (snd (_get_key i w))).
Proof.
  destruct (Z.eq_dec (page_size (w_self w)) 0) as [Hz|Hps].
  { exists []. unfold _get_key. run. apply Z.eqb_eq in Hz. rewrite Hz. cbn.
    split; [apply only_resolved_refl|]. split; [now left|auto]. }
  set (key_page := i / page_size (w_self w)).
  set (kept := if CACHE_TIME <? w_clock w - last_cache_time (w_self w)
               then ∅ else page_cache (w_self w)).
  assert (Hkept_coh : cache_coherent w ->
            forall q pg, kept !! q = Some pg ->
                         srv_elements_page (w_srv w) (url_prefix (w_self w)) q = inr pg).
  { intros Hcoh q pg. subst kept. destruct (CACHE_TIME <? _); [now rewrite lookup_empty|apply Hcoh]. }
  destruct (kept !! key_page) as [cached|] eqn:Hlook.
  - (* served from the cache: nothing happens *)
    assert (Hfresh : (CACHE_TIME <? w_clock w - last_cache_time (w_self w)) = false).
    { subst kept. destruct (CACHE_TIME <? _); [now rewrite lookup_empty in Hlook|reflexivity]. }
    subst kept. rewrite Hfresh in Hlook.
    rewrite (cached_page_is_used w i cached Hps ltac:(apply Z.ltb_ge in Hfresh; lia) Hlook).
    exists []. split; [apply only_resolved_refl|]. split; [now left|auto].
  - destruct (srv_elements_page (w_srv w) (url_prefix (w_self w)) key_page) as [e|page] eqn:Hsrv.
    + exists [key_page]. split; [|split; [now right|]].
      * exists kept, (last_cache_time (w_self w)), (srv_round_trip (w_srv w)).
        subst kept key_page. unfold _get_key. run.
        apply Z.eqb_neq in Hps. rewrite Hps.
        destruct w as [sv [u ti de re ta bi ec cc pc lt ps] rs fs cl fl]. cbn in *.
        destruct (CACHE_TIME <? cl - lt); cbn in *; rewrite Hlook; cbn; rewrite Hsrv; reflexivity.
      * intros Hcoh q pg Hq.
        destruct (get_key_miss_fails w i e Hps Hlook Hsrv) as (_ & Hc & _).
        fold kept in Hc. rewrite Hc in Hq.
        assert (Hsame : w_srv (snd (_get_key i w)) = w_srv w /\
                        url_prefix (w_self (snd (_get_key i w))) = url_prefix (w_self w)).
        { unfold _get_key. run. apply Z.eqb_neq in Hps. rewrite Hps.
          fold key_page. subst kept.
          destruct (CACHE_TIME <? _); cbn in *; rewrite Hlook; cbn; rewrite Hsrv; split; reflexivity. }
        destruct Hsame as [-> ->]. now apply Hkept_coh.
    + rewrite (get_key_miss w i page Hps Hlook Hsrv). fold key_page kept. cbn [snd].
      exists [key_page]. split; [|split; [now right|]].
      * eexists _, _, _. reflexivity.
      * intros Hcoh q pg. cbn. intros [[<- <-]|[_ Hq]]%lookup_insert_Some; [exact Hsrv|].
        now apply Hkept_coh.
Qed.

(** X1. The resolver's footprint: whatever the outcome, it sends at most one
    request, a page request for the page of [i]; it writes nothing but the
    page cache and its timestamp; and a cache that agreed with the service
    still does. *)
Theorem get_key_footprint w i :
  exists pages,
    only_resolved pages w (snd (_get_key i w)) /\
    (pages = [] \/ pages = [i / page_size (w_self w)]) /\
    (cache_coherent w -> cache_coherent (snd (_get_key i w))).
Proof. exact (get_key_step_footprint w i). Qed.

(** A successful resolve leaves the page of the index in the cache, with
    the identifier at the offset of the index. *)
Lemma get_key_leaves_page w i id :
  page_size (w_self w) <> 0 ->
  fst (_get_key i w) = inr id ->
  exists page d,
    page_cache (w_self (snd (_get_key i w))) !! (i / page_size (w_self w)) = Some page /\
    list_getitem page (i mod page_size (w_self w)) = Some d /\
    _id d = id /\
    page_size (w_self (snd (_get_key i w))) = page_size (w_self w).
Proof.
  intros Hps Hok.
  set (key_page := i / page_size (w_self w)).
  set (kept := if CACHE_TIME <? w_clock w - last_cache_time (w_self w)
               then ∅ else page_cache (w_self w)).
  destruct (kept !! key_page) as [cached|] eqn:Hlook.
  - assert (Hfresh : (CACHE_TIME <? w_clock w - last_cache_time (w_self w)) = false).
    { subst kept. destruct (CACHE_TIME <? _); [now rewrite lookup_empty in Hlook|reflexivity]. }
    subst kept. rewrite Hfresh in Hlook. apply Z.ltb_ge in Hfresh.
    rewrite (cached_page_is_used w i cached Hps Hfresh Hlook) in Hok |- *. cbn [fst snd] in Hok |- *.
    exists cached. destruct (list_getitem cached _) as [d|]; [|discriminate Hok].
    exists d. inversion Hok. now repeat split.
  - destruct (srv_elements_page (w_srv w) (url_prefix (w_self w)) key_page) as [e|page] eqn:Hsrv.
    + destruct (get_key_miss_fails w i e Hps Hlook Hsrv) as (Hfail & _).
      rewrite Hfail in Hok. discriminate.
    + rewrite (get_key_miss w i page Hps Hlook Hsrv) in Hok |- *. fold key_page kept in Hok |- *.
      cbn [fst snd] in Hok |- *.
      exists page. destruct (list_getitem page _) as [d|]; [|discriminate Hok].
      exists d. inversion Hok. cbn. rewrite lookup_insert_eq. now repeat split.
Qed.

(** X2. After a successful resolve of [i], in any later state in which the
    page cache, its timestamp and the page size are as that resolve left
    them: while no more than [CACHE_TIME] has passed since the timestamp,
    resolving [i] again gives the same identifier, and resolving any index
    of the same page sends nothing and changes nothing; once more than
    [CACHE_TIME] has passed, resolving [i] requests its page again. *)
Theorem get_key_again w i id :
  page_size (w_self w) <> 0 ->
  fst (_get_key i w) = inr id ->
  forall w2,
    keeps_cache (snd (_get_key i w)) w2 ->
    (w_clock w2 - last_cache_time (w_self w2) <= CACHE_TIME ->
       _get_key i w2 = (inr id, w2) /\
       (forall j, j / page_size (w_self w) = i / page_size (w_self w) ->
          snd (_get_key j w2) = w2)) /\
    (CACHE_TIME < w_clock w2 - last_cache_time (w_self w2) ->
       w_requests (snd (_get_key i w2))
       = w_requests w2
         ++ [GetElementsPage (url_prefix (w_self w2)) (i / page_size (w_self w))]).
Proof.
  intros Hps Hok w2 (Hc & _ & Hp).
  destruct (get_key_leaves_page w i id Hps Hok) as (page & d & Hpage & Hd & Hid & Hps1).
  rewrite Hps1 in Hp.
  assert (Hps2 : page_size (w_self w2) <> 0) by congruence.
  split.
  - intros Hfresh.
    assert (Hpage2 : forall j, j / page_size (w_self w) = i / page_size (w_self w) ->
              page_cache (w_self w2) !! (j / page_size (w_self w2)) = Some page)
      by (intros j Hj; rewrite Hc, Hp, Hj; exact Hpage).
    split.
    + rewrite (cached_page_is_used w2 i page Hps2 Hfresh (Hpage2 i eq_refl)).
      now rewrite Hp, Hd, Hid.
    + intros j Hj. now rewrite (cached_page_is_used w2 j page Hps2 Hfresh (Hpage2 j Hj)).
  - intros Hexp. rewrite <- Hp. unfold _get_key. run.
    apply Z.eqb_neq in Hps2. rewrite Hps2.
    apply Z.ltb_lt in Hexp. rewrite Hexp. simpl. rewrite lookup_empty. simpl.
    destruct (srv_elements_page _ _ _) as [e|page']; simpl; [reflexivity|].
    now destruct (list_getitem page' _).
Qed.
End Resolver.

(** ** Resolving a run of indices *)

Lemma sublist_empty {A} a (l : list A) : sublist a (a + Z.of_nat 0) l = [].
Proof. unfold sublist. now replace (a + Z.of_nat 0 - a) with 0 by lia. Qed.

Lemma sublist_cons {A} a k (l : list A) d :
  0 <= a -> l !! Z.to_nat a = Some d ->
  sublist a (a + Z.of_nat (S k)) l = d :: sublist (a + 1) (a + 1 + Z.of_nat k) l.
Proof.
  intros Ha Hd. unfold sublist.
  replace (Z.to_nat (a + Z.of_nat (S k) - a)) with (S k) by lia.
  replace (Z.to_nat (a + 1 + Z.of_nat k - (a + 1))) with k by lia.
  replace (Z.to_nat (a + 1)) with (S (Z.to_nat a)) by lia.
  rewrite (drop_S l d _ Hd). reflexivity.
Qed.

Lemma sublist_all {A} (l : list A) : sublist 0 (0 + Z.of_nat (length l)) l = l.
Proof.
  unfold sublist. cbn [Z.to_nat drop]. apply take_ge. lia.
Qed.



Lemma for_each_cons {Srv A B} (f : A -> M Srv B) x l (w : World Srv) :
  for_each f (x :: l) w
  = match f x w with
    | (inr y, w1) =>
        match for_each f l w1 with
        | (inr ys, w2) => (inr (y :: ys), w2)
        | (inl e, w2) => (inl e, w2)
        end
    | (inl e, w1) => (inl e, w1)
    end.
Proof.
  cbn [for_each]. unfold bind, ret. destruct (f x w) as [[e|y] w1]; [reflexivity|].
  destruct (for_each f l w1) as [[e|ys] w2]; reflexivity.
Qed.

Section Ranges.
Context {Srv : Type} `{!Remote Srv} `{!Config}.
Implicit Types (w : World Srv) (i : Z) (l : list ElemDict).

Lemma in_step_resolved l pages w w' :
  only_resolved pages w w' -> cache_coherent w' -> in_step l w -> in_step l w'.
Proof.
  intros Hres Hcoh (Hps & Hsrv & _).
  destruct (only_resolved_frame _ _ _ Hres) as (Es & _ & _ & Eu & Ep & _).
  unfold in_step. rewrite Es, Eu, Ep. auto.
Qed.

(** One resolve on a client in step with its service. *)
Lemma get_key_in_step l w i :
  in_step l w ->
  exists pages,
    only_resolved pages w (snd (_get_key i w)) /\
    in_step l (snd (_get_key i w)) /\
    fst (_get_key i w)
    = match (if (0 <=? i) && (i <? Z.of_nat (length l)) then l !! Z.to_nat i else None) with
      | Some d => inr (_id d)
      | None => inl IndexError
      end.
Proof.
  intros Hstep. pose proof Hstep as (Hps & Hsrv & Hcoh).
  destruct (get_key_step_footprint w i) as (pages & Hres & _ & Hcoh').
  exists pages. split; [exact Hres|]. split; [eapply in_step_resolved; eauto|].
  rewrite (get_key_answer w i _ ltac:(lia) Hcoh (Hsrv _)).
  now rewrite page_of_getitem.
Qed.

(** Resolving the indices [a], [a+1], ..., [a+k-1] in turn: all of them are
    resolved if they all are indices of the listing; otherwise the first one
    that is not raises [IndexError].  Only page requests are sent. *)
Lemma resolve_range l k : forall a w,
  in_step l w ->
  exists pages,
    only_resolved pages w (snd (for_each _get_key (pages_from a k) w)) /\
    in_step l (snd (for_each _get_key (pages_from a k) w)) /\
    (0 <= a /\ a + Z.of_nat k <= Z.of_nat (length l) ->
     fst (for_each _get_key (pages_from a k) w)
     = inr (map _id (sublist a (a + Z.of_nat k) l))) /\
    ((0 < k)%nat -> ~ (0 <= a /\ a + Z.of_nat k <= Z.of_nat (length l)) ->
     fst (for_each _get_key (pages_from a k) w) = inl IndexError).
Proof.
  induction k as [|k IH]; intros a w Hstep.
  - exists []. cbn. split; [apply only_resolved_refl|]. split; [exact Hstep|].
    split; [|lia]. intros _. now rewrite sublist_empty.
  - cbn [pages_from]. rewrite for_each_cons.
    destruct (get_key_in_step l w a Hstep) as (pages1 & Hres1 & Hstep1 & Hans).
    destruct (_get_key a w) as [[e|id] w1] eqn:Hrun; cbn [fst snd] in *.
    + exists pages1. split; [exact Hres1|]. split; [exact Hstep1|].
      destruct (Z.leb_spec 0 a), (Z.ltb_spec a (Z.of_nat (length l))); cbn [andb] in Hans;
        try (split; [lia|intros _ _; congruence]).
      destruct (lookup_lt_is_Some_2 l (Z.to_nat a) ltac:(lia)) as [d Hd].
      rewrite Hd in Hans. discriminate.
    + destruct (Z.leb_spec 0 a), (Z.ltb_spec a (Z.of_nat (length l))); cbn [andb] in Hans;
        try discriminate.
      destruct (l !! Z.to_nat a) as [d|] eqn:Hd; [|discriminate].
      inversion Hans; subst id. clear Hans.
      destruct (IH (a + 1) w1 Hstep1) as (pages2 & Hres2 & Hstep2 & Hin & Hout).
      exists (pages1 ++ pages2).
      destruct (for_each _get_key (pages_from (a + 1) k) w1) as [[e|ids] w2]; cbn [fst snd] in *.
      * split; [eapply only_resolved_trans; eauto|]. split; [exact Hstep2|].
        split.
        -- intros [_ Hle]. specialize (Hin ltac:(lia)). discriminate Hin.
        -- intros _ Hnot. destruct k as [|k]; [specialize (Hin ltac:(lia)); discriminate Hin|].
           exact (Hout ltac:(lia) ltac:(lia)).
      * split; [eapply only_resolved_trans; eauto|]. split; [exact Hstep2|].
        split.
        -- intros [_ Hle]. rewrite (sublist_cons a k l d) by assumption. cbn [map].
           specialize (Hin ltac:(lia)). congruence.
        -- intros _ Hnot. destruct k as [|k]; [lia|].
           specialize (Hout ltac:(lia) ltac:(lia)). discriminate Hout.
Qed.


(** X3. [keys()] lists the identifiers of the whole dataset, in listing order,
    and sends page requests only; a dataset of more elements than
    [sys.maxsize] has its [len] refused with [OverflowError], before any
    request. *)
Theorem keys_lists_all l w :
  in_step l w ->
  elements_count (w_self w) = Z.of_nat (length l) ->
  fst (keys (-1) w)
  = (if sys_maxsize <? Z.of_nat (length l) then inl OverflowError else inr (map _id l)) /\
  exists pages, only_resolved pages w (snd (keys (-1) w)).
Proof.
  intros Hstep Hcount. unfold keys. cbn [Z.eqb Pos.eqb]. run.
  rewrite Hcount. unfold len_check.
  destruct (Z.ltb_spec (Z.of_nat (length l)) 0); [lia|].
  destruct (Z.ltb_spec sys_maxsize (Z.of_nat (length l))).
  { split; [reflexivity|]. exists []. apply only_resolved_refl. }
  rewrite py_range_pages, Z.sub_0_r, Nat2Z.id.
  destruct (resolve_range l (length l) 0 w Hstep) as (pages & Hres & _ & Hin & _).
  rewrite Hin by lia. rewrite sublist_all. split; [reflexivity|]. now exists pages.
Qed.

End Ranges.

(** ** Access by index and by slice *)

Lemma bind_returns {Srv A B} (m : M Srv A) (k : A -> M Srv B) (w : World Srv) b :
  fst (bind m k w) = inr b ->
  exists a w1, m w = (inr a, w1) /\ fst (k a w1) = inr b.
Proof. unfold bind. destruct (m w) as [[e|a] w1]; [discriminate|eauto]. Qed.

Section Access.
Context {Srv : Type} `{!Remote Srv} `{!Config}.
Implicit Types (w : World Srv) (l : list ElemDict) (ids : list string).

(** The slice path of [__getitem__], stage by stage. *)
Lemma getitem_slice_stages (k : Slice) w indices :
  slice_indices k (len_check (elements_count (w_self w))) = inr indices ->
  __getitem__ (KSlice k) w
  = match for_each _get_key indices w with
    | (inl e, w1) => (inl e, w1)
    | (inr ids, w1) =>
        match for_each (fun segment : list string => pool_keys_submit (_request_segment ids))
                (segments ids (page_size (w_self w))) w1 with
        | (inl e, w2) => (inl e, w2)
        | (inr futures, w2) =>
            match for_each result futures w2 with
            | (inl e, w3) => (inl e, w3)
            | (inr chunks, w3) => (item_of (KSlice k) (concat chunks), w3)
            end
        end
    end.
Proof.
  intros Hidx. unfold __getitem__. cbn [key_str]. run. rewrite Hidx. cbn.
  destruct (for_each _get_key indices w) as [[e|ids] w1]; [reflexivity|].
  destruct (for_each _ (segments ids _) w1) as [[e|futures] w2]; [reflexivity|].
  destruct (for_each _ futures w2) as [[e|chunks] w3]; [reflexivity|].
  unfold item_of. destruct (concat chunks) as [|e1 [|e2 rest]]; reflexivity.
Qed.

Lemma getitem_slice_rejected (k : Slice) w e :
  slice_indices k (len_check (elements_count (w_self w))) = inl e ->
  __getitem__ (KSlice k) w = (inl e, w).
Proof. intros Hidx. unfold __getitem__. cbn [key_str]. run. now rewrite Hidx. Qed.

(** Collecting the results of futures that all hold a result. *)
Lemma for_each_result_all {A} (chunks : list A) w :
  for_each result (map inr chunks) w = (inr chunks, w).
Proof.
  induction chunks as [|c chunks IH]; [reflexivity|].
  cbn [map]. rewrite for_each_cons. cbn. now rewrite IH.
Qed.

(** ... and of futures the first of which holds an exception. *)
Lemma for_each_result_raises {A} e (futures : list (exn + A)) w :
  for_each result (inl e :: futures) w = (inl e, w).
Proof. reflexivity. Qed.

(** One segment job, as [pool_keys] runs it. *)
Lemma request_segment_run ids results w :
  srv_bundle (w_srv w) (url_prefix (w_self w)) ids = inr results ->
  pool_keys_submit (_request_segment ids) w
  = (inr (inr (yield_page (length (w_futures w)) results)),
     mkWorld (w_srv w) (w_self w)
       ((w_requests w ++ [GetBundle (url_prefix (w_self w)) ids])
          ++ [GetContent (url_prefix (w_self w)) ids])
       (w_futures w ++ [content_outcome (w_srv w) (url_prefix (w_self w)) ids])
       (w_clock w + srv_round_trip (w_srv w) + srv_round_trip (w_srv w)) (w_files w)).
Proof.
  intros Hsrv. unfold _request_segment, _retrieve_segment_contents. run. rewrite Hsrv. simpl.
  unfold content_outcome. destruct (srv_content _ _ _); reflexivity.
Qed.

Lemma request_segment_fail ids e w :
  srv_bundle (w_srv w) (url_prefix (w_self w)) ids = inl e ->
  pool_keys_submit (_request_segment ids) w
  = (inr (inl e), sent (GetBundle (url_prefix (w_self w)) ids) (w_srv w) w).
Proof. intros Hsrv. unfold _request_segment. run. now rewrite Hsrv. Qed.

(** The segment jobs when the service answers the bundle for [ids] with
    [results]: every job gets these results and submits its own content
    job. *)
Lemma segment_jobs_run ids results (segs : list (list string)) : forall w,
  srv_bundle (w_srv w) (url_prefix (w_self w)) ids = inr results ->
  exists w',
    for_each (fun segment : list string => pool_keys_submit (_request_segment ids)) segs w
    = (inr (map inr (imap (fun j _ => yield_page (length (w_futures w) + j) results) segs)), w') /\
    w_srv w' = w_srv w /\ w_self w' = w_self w /\ w_files w' = w_files w /\
    w_futures w'
    = w_futures w
      ++ replicate (length segs) (content_outcome (w_srv w) (url_prefix (w_self w)) ids) /\
    exists new,
      w_requests w' = w_requests w ++ new /\
      page_requests new = [] /\
      bundle_requests new = replicate (length segs) ids /\
      content_requests new = replicate (length segs) ids.
Proof.
  induction segs as [|segment segs IH]; intros w Hsrv.
  - exists w. cbn. rewrite app_nil_r. repeat split; try reflexivity.
    exists []. now rewrite app_nil_r.
  - rewrite for_each_cons, (request_segment_run ids results w Hsrv).
    match goal with
    | |- context [for_each _ segs ?w1] =>
        destruct (IH w1 Hsrv) as (w' & Hrun & Hs & Hself & Hfiles & Hfut & new & Hreq & Hp & Hb & Hc)
    end.
    cbn [w_srv w_self w_requests w_futures w_clock w_files] in *.
    rewrite Hrun. exists w'.
    split.
    { f_equal. f_equal. cbn [map imap]. f_equal.
      - now rewrite Nat.add_0_r.
      - f_equal. apply imap_ext. intros j sg _. cbn. rewrite length_app. cbn. f_equal. lia. }
    split; [exact Hs|]. split; [exact Hself|]. split; [exact Hfiles|].
    split; [rewrite Hfut, <- app_assoc; reflexivity|].
    exists ([GetBundle (url_prefix (w_self w)) ids; GetContent (url_prefix (w_self w)) ids] ++ new).
    split; [rewrite Hreq, <- !app_assoc; reflexivity|].
    unfold page_requests, bundle_requests, content_requests in *. cbn.
    rewrite Hp, Hb, Hc. repeat split.
Qed.

(** The segment jobs when the service fails the bundle for [ids]: every
    future holds the exception, and no content job is submitted. *)
Lemma segment_jobs_fail ids e (segs : list (list string)) : forall w,
  srv_bundle (w_srv w) (url_prefix (w_self w)) ids = inl e ->
  exists w',
    for_each (fun segment : list string => pool_keys_submit (_request_segment ids)) segs w
    = (inr (map (fun _ => inl e) segs), w') /\
    w_srv w' = w_srv w /\ w_self w' = w_self w /\ w_futures w' = w_futures w /\
    content_requests (w_requests w') = content_requests (w_requests w).
Proof.
  induction segs as [|segment segs IH]; intros w Hsrv.
  - exists w. repeat split.
  - rewrite for_each_cons, (request_segment_fail ids e w Hsrv).
    destruct (IH (sent (GetBundle (url_prefix (w_self w)) ids) (w_srv w) w) Hsrv)
      as (w' & Hrun & Hs & Hself & Hfut & Hc).
    rewrite Hrun. exists w'. repeat split; try assumption.
    rewrite Hc. unfold content_requests, sent. cbn. rewrite omap_app. cbn. now rewrite app_nil_r.
Qed.

Lemma segments_of_none {A} ps : segments (@nil A) ps = [].
Proof. unfold segments. now destruct (0 <? ps). Qed.

Lemma segments_of_some {A} (x : A) xs ps :
  0 < ps -> exists seg segs, segments (x :: xs) ps = seg :: segs.
Proof.
  intros Hps. unfold segments. destruct (Z.ltb_spec 0 ps); [|lia]. cbn. eauto.
Qed.

Lemma segments_of_one {A} (x : A) ps : 0 < ps -> segments [x] ps = [[x]].
Proof.
  intros Hps. unfold segments. destruct (Z.ltb_spec 0 ps); [|lia]. cbn.
  destruct (Z.to_nat ps) as [|n] eqn:E; [lia|]. cbn. now rewrite take_nil.
Qed.

Lemma short_key_as_slice w key str_key n :
  key_str key = Some str_key ->
  (String.length str_key < 8)%nat ->
  key_int key = Some n ->
  __getitem__ key w = __getitem__ (KSlice (slice (Some n) (Some (n + 1)) (Some 1))) w.
Proof.
  intros Hstr Hlen Hint. unfold __getitem__ at 1. rewrite Hstr.
  apply Nat.ltb_lt in Hlen. rewrite Hlen, Hint. reflexivity.
Qed.

(** X5. A key that is no slice, has fewer than 8 characters as a string and
    reads as the integer [n] is the one-element slice [n:n+1:1]: [ds[n]],
    [ds["n"]] and [ds[n:n+1:1]] are the same access, with the same outcome
    and the same effects. *)
Theorem getitem_index_as_slice w key str_key n :
  key_str key = Some str_key ->
  (String.length str_key < 8)%nat ->
  key_int key = Some n ->
  __getitem__ key w = __getitem__ (KSlice (slice (Some n) (Some (n + 1)) (Some 1))) w.
Proof. exact (short_key_as_slice w key str_key n). Qed.

(** X6. An [int] whose decimal form has 8 characters or more is neither an
    index nor an identifier: [__getitem__] raises
    [KeyError("Type of key not allowed.")] and sends nothing. *)
Theorem getitem_long_int_rejected w n :
  (8 <= String.length (str_of_int n))%nat ->
  __getitem__ (KInt n) w = (inl (KeyError TypeNotAllowed), w).
Proof.
  intros Hlen. unfold __getitem__. cbn [key_str].
  assert (Hlt : (String.length (str_of_int n) <? 8)%nat = false) by (apply Nat.ltb_ge; lia).
  now rewrite Hlt.
Qed.

(** X7. A slice without a start, or with a zero step, is rejected by [range]
    before any index is resolved: [ds[:stop]] raises [TypeError],
    [ds[start:stop:0]] raises [ValueError].  With a negative stop
    [len(self)] is called before [range]: a count that [len] refuses raises
    the exception of [len] instead. *)
Theorem getitem_slice_rejected_by_range w start stop step :
  let refused (e : exn) :=
    if stop <? 0 then
      match len_check (elements_count (w_self w)) with
      | inr _ => e
      | inl e' => e'
      end
    else e in
  __getitem__ (KSlice (slice None (Some stop) step)) w = (inl (refused TypeError), w) /\
  __getitem__ (KSlice (slice (Some start) (Some stop) (Some 0))) w
  = (inl (refused ValueError), w).
Proof.
  cbv zeta.
  split; apply getitem_slice_rejected; unfold slice_indices; cbn;
    destruct (stop <? 0); try reflexivity;
    now destruct (len_check (elements_count (w_self w))).
Qed.

Lemma slice_in_range_run l w a b step results :
  in_step l w ->
  0 <= a -> a <= b -> b <= Z.of_nat (length l) ->
  step = None \/ step = Some 1 ->
  let key := KSlice (slice (Some a) (Some b) step) in
  let ids := map _id (sublist a b l) in
  let segs := segments ids (page_size (w_self w)) in
  srv_bundle (w_srv w) (url_prefix (w_self w)) ids = inr results ->
  exists w',
    __getitem__ key w
    = (item_of key
         (concat (imap (fun j _ => yield_page (length (w_futures w) + j) results) segs)), w') /\
    bundle_requests (w_requests w')
    = bundle_requests (w_requests w) ++ replicate (length segs) ids /\
    content_requests (w_requests w')
    = content_requests (w_requests w) ++ replicate (length segs) ids /\
    w_futures w'
    = w_futures w
      ++ replicate (length segs) (content_outcome (w_srv w) (url_prefix (w_self w)) ids).
Proof.
  intros Hstep Ha Hab Hb Hone key ids segs Hsrv.
  assert (Hidx : slice_indices (slice (Some a) (Some b) step) (len_check (elements_count (w_self w)))
                 = inr (pages_from a (Z.to_nat (b - a)))).
  { rewrite <- py_range_pages. unfold slice_indices. cbn.
    destruct (Z.ltb_spec b 0); [lia|]. destruct Hone as [-> | ->]; reflexivity. }
  subst key. rewrite (getitem_slice_stages _ w _ Hidx).
  destruct (resolve_range l (Z.to_nat (b - a)) a w Hstep) as (pages & Hres & _ & Hin & _).
  rewrite Z2Nat.id in Hin by lia. replace (a + (b - a)) with b in Hin by lia.
  specialize (Hin ltac:(lia)). fold ids in Hin.
  destruct (for_each _get_key (pages_from a (Z.to_nat (b - a))) w) as [r w1].
  cbn [fst snd] in *. subst r.
  destruct (only_resolved_frame _ _ _ Hres) as (Es & Ef & _ & Eu & _ & _ & _ & Ebr & Ecr & _).
  assert (Hsrv1 : srv_bundle (w_srv w1) (url_prefix (w_self w1)) ids = inr results)
    by (rewrite Es, Eu; exact Hsrv).
  fold segs.
  destruct (segment_jobs_run ids results segs w1 Hsrv1)
    as (w2 & Hrun & Hs2 & Hself2 & _ & Hfut2 & new & Hreq2 & _ & Hb2 & Hc2).
  rewrite Hrun, for_each_result_all. exists w2.
  rewrite Ef in *. split; [reflexivity|].
  rewrite Hreq2. unfold bundle_requests, content_requests in *. rewrite !omap_app.
  rewrite Hb2, Hc2, Ebr, Ecr, Hfut2, Es, Eu. repeat split.
Qed.

(** X8. What a slice [a:b] within the listing returns, when the service answers
    the bundle request for the resolved identifiers with [results]: the
    identifiers are cut into segments, and for every segment the whole of
    [results] is returned, each copy holding the future of its own content
    job for all the identifiers. *)
Theorem getitem_slice_in_range l w a b step results :
  in_step l w ->
  0 <= a -> a <= b -> b <= Z.of_nat (length l) ->
  step = None \/ step = Some 1 ->
  let key := KSlice (slice (Some a) (Some b) step) in
  let ids := map _id (sublist a b l) in
  let segs := segments ids (page_size (w_self w)) in
  srv_bundle (w_srv w) (url_prefix (w_self w)) ids = inr results ->
  exists w',
    __getitem__ key w
    = (item_of key
         (concat (imap (fun j _ => yield_page (length (w_futures w) + j) results) segs)), w') /\
    bundle_requests (w_requests w')
    = bundle_requests (w_requests w) ++ replicate (length segs) ids /\
    content_requests (w_requests w')
    = content_requests (w_requests w) ++ replicate (length segs) ids /\
    w_futures w'
    = w_futures w
      ++ replicate (length segs) (content_outcome (w_srv w) (url_prefix (w_self w)) ids).
Proof. exact (slice_in_range_run l w a b step results). Qed.

(** X9. Access by an index of the listing, when the service answers the bundle
    for the resolved identifier with its metadata: the bare element comes
    back, holding the future of one content job; one metadata request and
    one content request were sent, each for that identifier alone. *)
Theorem getitem_index_in_range l w n d meta :
  in_step l w ->
  (String.length (str_of_int n) < 8)%nat ->
  0 <= n -> l !! Z.to_nat n = Some d ->
  srv_bundle (w_srv w) (url_prefix (w_self w)) [_id d] = inr [meta] ->
  exists w',
    __getitem__ (KInt n) w
    = (inr (One {| el_dict := meta; content_promise := Some (length (w_futures w)) |}), w') /\
    bundle_requests (w_requests w') = bundle_requests (w_requests w) ++ [[_id d]] /\
    content_requests (w_requests w') = content_requests (w_requests w) ++ [[_id d]].
Proof.
  intros Hstep Hshort Hn Hd Hsrv. pose proof Hstep as (Hps & _ & _).
  rewrite (short_key_as_slice w (KInt n) _ n eq_refl Hshort eq_refl).
  pose proof (lookup_lt_Some _ _ _ Hd) as Hlt.
  assert (Hids : map _id (sublist n (n + 1) l) = [_id d]).
  { change (n + 1) with (n + Z.of_nat 1). rewrite (sublist_cons n 0 l d Hn Hd).
    cbn [map]. now rewrite sublist_empty. }
  destruct (slice_in_range_run l w n (n + 1) (Some 1) [meta] Hstep Hn ltac:(lia) ltac:(lia)
              ltac:(now right)) as (w' & Hrun & Hb & Hc & _).
  { rewrite Hids. exact Hsrv. }
  rewrite Hids, segments_of_one in Hrun, Hb, Hc by assumption.
  exists w'. split; [|split; assumption].
  rewrite Hrun. cbn. now rewrite Nat.add_0_r.
Qed.

(** X10. On a service that lists the dataset page by page, with a page
    cache that agrees with it and a count that [len] accepts: access by an
    index that is not one of the listing, negative indices included, raises
    [IndexError], not the Not-Found [KeyError]; no metadata or content
    request is sent. *)
Theorem getitem_index_out_of_range l w n :
  in_step l w ->
  0 <= elements_count (w_self w) <= sys_maxsize ->
  (String.length (str_of_int n) < 8)%nat ->
  ~ (0 <= n < Z.of_nat (length l)) ->
  fst (__getitem__ (KInt n) w) = inl IndexError /\
  bundle_requests (w_requests (snd (__getitem__ (KInt n) w))) = bundle_requests (w_requests w) /\
  content_requests (w_requests (snd (__getitem__ (KInt n) w))) = content_requests (w_requests w).
Proof.
  intros Hstep Hcount Hshort Hout.
  rewrite (short_key_as_slice w (KInt n) _ n eq_refl Hshort eq_refl).
  set (stop := if n + 1 <? 0 then elements_count (w_self w) - (n + 1) else n + 1).
  assert (Hidx : slice_indices (slice (Some n) (Some (n + 1)) (Some 1))
                   (len_check (elements_count (w_self w)))
                 = inr (pages_from n (Z.to_nat (stop - n)))).
  { rewrite <- py_range_pages, (len_check_accepts _ Hcount). unfold slice_indices. cbn.
    subst stop. now destruct (n + 1 <? 0). }
  rewrite (getitem_slice_stages _ w _ Hidx).
  destruct (resolve_range l (Z.to_nat (stop - n)) n w Hstep) as (pages & Hres & _ & _ & Hfail).
  assert (Hk : (0 < Z.to_nat (stop - n))%nat)
    by (subst stop; destruct (Z.ltb_spec (n + 1) 0); lia).
  specialize (Hfail Hk ltac:(subst stop; destruct (Z.ltb_spec (n + 1) 0); lia)).
  destruct (for_each _get_key _ w) as [r w1]. cbn [fst snd] in *. subst r.
  destruct (only_resolved_frame _ _ _ Hres) as (_ & _ & _ & _ & _ & _ & _ & Ebr & Ecr & _).
  now split.
Qed.

(** X11. On a service that lists the dataset page by page, with a page
    cache that agrees with it and [elements_count] the number of elements
    listed (one that [len] accepts): a slice with a negative stop never
    returns anything.  The stop becomes [len + |stop|], past the end, and
    the access raises [IndexError] at the first index that is not in the
    listing (or the Not-Found [KeyError] when the range is empty). *)
Theorem getitem_negative_stop_raises l w a s step :
  in_step l w ->
  elements_count (w_self w) = Z.of_nat (length l) ->
  Z.of_nat (length l) <= sys_maxsize ->
  s < 0 ->
  step = None \/ step = Some 1 ->
  exists e,
    fst (__getitem__ (KSlice (slice (Some a) (Some s) step)) w) = inl e /\
    is_LookupError e = true.
Proof.
  intros Hstep Hcount Hmax Hs Hone.
  set (stop := Z.of_nat (length l) - s).
  assert (Hidx : slice_indices (slice (Some a) (Some s) step)
                   (len_check (elements_count (w_self w)))
                 = inr (pages_from a (Z.to_nat (stop - a)))).
  { rewrite <- py_range_pages, (len_check_accepts (elements_count (w_self w))) by lia.
    unfold slice_indices. cbn. rewrite Hcount.
    destruct (Z.ltb_spec s 0); [|lia]. destruct Hone as [-> | ->]; reflexivity. }
  rewrite (getitem_slice_stages _ w _ Hidx).
  destruct (Z.to_nat (stop - a)) as [|k] eqn:Hk.
  - cbn. rewrite segments_of_none. cbn. eexists. split; reflexivity.
  - destruct (resolve_range l (S k) a w Hstep) as (pages & _ & _ & _ & Hfail).
    specialize (Hfail ltac:(lia) ltac:(subst stop; lia)).
    destruct (for_each _get_key _ w) as [r w1]. cbn [fst] in Hfail. subst r.
    exists IndexError. split; reflexivity.
Qed.

(** X12. When the metadata request of a segment fails, the exception is the
    caller's, whatever it is (it is not turned into Not-Found as on the
    identifier path), and no content job was submitted. *)
Theorem getitem_slice_bundle_failure l w a b step e :
  in_step l w ->
  0 <= a -> a < b -> b <= Z.of_nat (length l) ->
  step = None \/ step = Some 1 ->
  srv_bundle (w_srv w) (url_prefix (w_self w)) (map _id (sublist a b l)) = inl e ->
  fst (__getitem__ (KSlice (slice (Some a) (Some b) step)) w) = inl e /\
  w_futures (snd (__getitem__ (KSlice (slice (Some a) (Some b) step)) w)) = w_futures w.
Proof.
  intros Hstep Ha Hab Hb Hone Hsrv. pose proof Hstep as (Hps & _ & _).
  assert (Hidx : slice_indices (slice (Some a) (Some b) step) (len_check (elements_count (w_self w)))
                 = inr (pages_from a (Z.to_nat (b - a)))).
  { rewrite <- py_range_pages. unfold slice_indices. cbn.
    destruct (Z.ltb_spec b 0); [lia|]. destruct Hone as [-> | ->]; reflexivity. }
  rewrite (getitem_slice_stages _ w _ Hidx).
  destruct (resolve_range l (Z.to_nat (b - a)) a w Hstep) as (pages & Hres & _ & Hin & _).
  rewrite Z2Nat.id in Hin by lia. replace (a + (b - a)) with b in Hin by lia.
  specialize (Hin ltac:(lia)).
  destruct (for_each _get_key (pages_from a (Z.to_nat (b - a))) w) as [r w1].
  cbn [fst snd] in *. subst r.
  destruct (only_resolved_frame _ _ _ Hres) as (Es & Ef & _ & Eu & _).
  assert (Hsrv1 : srv_bundle (w_srv w1) (url_prefix (w_self w1)) (map _id (sublist a b l)) = inl e)
    by (rewrite Es, Eu; exact Hsrv).
  assert (Hsome : exists seg segs,
             segments (map _id (sublist a b l)) (page_size (w_self w)) = seg :: segs).
  { destruct (lookup_lt_is_Some_2 l (Z.to_nat a) ltac:(lia)) as [d Hd].
    replace b with (a + Z.of_nat (S (Z.to_nat (b - a - 1)))) by lia.
    rewrite (sublist_cons a _ l d Ha Hd). cbn [map]. now apply segments_of_some. }
  destruct Hsome as (seg & segs & ->).
  destruct (segment_jobs_fail _ e (seg :: segs) w1 Hsrv1) as (w2 & Hrun & _ & _ & Hfut & _).
  rewrite Hrun. cbn [map]. rewrite for_each_result_raises. cbn [fst snd].
  split; [reflexivity|congruence].
Qed.

(** X13. The shape of what [__getitem__] returns, whatever the key: a list has at
    least two elements; one element comes back bare, none is an error. *)
Theorem getitem_many_has_two w key elements :
  fst (__getitem__ key w) = inr (Many elements) -> (2 <= length elements)%nat.
Proof.
  intros Hret. unfold __getitem__ in Hret.
  apply bind_returns in Hret as (key' & w1 & _ & Hret).
  apply bind_returns in Hret as (es & w2 & _ & Hret).
  destruct es as [|e1 [|e2 rest]]; cbn in Hret; inversion Hret; subst. cbn. lia.
Qed.

(** X14. Access by an identifier of at least 8 characters that the service
    knows: one metadata request for the key, one single-element content job
    for the identifier in the answer; the element comes back bare, and the
    fields of [self], the page cache included, are untouched. *)
Theorem getitem_identifier_found w key_s meta :
  (8 <= String.length key_s)%nat ->
  srv_element (w_srv w) (url_prefix (w_self w)) key_s = inr meta ->
  exists w',
    __getitem__ (KStr key_s) w
    = (inr (One {| el_dict := meta; content_promise := Some (length (w_futures w)) |}), w') /\
    w_self w' = w_self w /\
    w_requests w'
    = w_requests w ++ [GetElement (url_prefix (w_self w)) key_s;
                       GetElementContent (url_prefix (w_self w)) (_id meta)] /\
    length (w_futures w') = S (length (w_futures w)).
Proof.
  intros Hlen Hsrv. unfold __getitem__. cbn [key_str].
  assert (Hlt : (String.length key_s <? 8)%nat = false) by (apply Nat.ltb_ge; lia).
  rewrite Hlt. unfold _retrieve_content. run. rewrite Hsrv. simpl.
  destruct (srv_element_content _ _ _); simpl; eexists; (split; [reflexivity|]);
    cbn; rewrite <- app_assoc, length_app; cbn; repeat split; lia.
Qed.
End Access.

(** ** Iteration, deletion and insertion *)

Section Mutations.
Context {Srv : Type} `{!Remote Srv} `{!Config}.
Implicit Types (w : World Srv) (l : list ElemDict).

(** X15. [__iter__] first takes [len(self)]: a count that [len] refuses
    (negative, or beyond [sys.maxsize]) raises the exception of [len]
    before anything is sent.  Otherwise it walks the pages that the cached
    count calls for, and yields them whole: on a service that lists the
    dataset page by page, with [N = number_of_pages(elements_count, ps)] it
    yields the first [N * ps] elements of the listing, whether the count is
    that of the listing or a stale one. *)
Theorem iter_follows_cached_count l w :
  0 < page_size (w_self w) ->
  serves (w_srv w) (url_prefix (w_self w)) (page_size (w_self w)) l ->
  match len_check (elements_count (w_self w)) with
  | inl e => __iter__ w = (inl e, w)
  | inr count =>
      let n_pages := Z.to_nat (number_of_pages count (page_size (w_self w))) in
      exists elements,
        fst (__iter__ w) = inr elements /\
        map el_dict elements = take (n_pages * Z.to_nat (page_size (w_self w))) l
  end.
Proof.
  intros Hps Hsrv. unfold __iter__. run.
  destruct (len_check (elements_count (w_self w))) as [e|count]; [reflexivity|].
  cbv zeta. destruct (Z.eqb_spec (page_size (w_self w)) 0) as [E|_]; [lia|].
  rewrite py_range_pages, Z.sub_0_r.
  set (n_pages := Z.to_nat (number_of_pages count (page_size (w_self w)))).
  destruct (iter_pages_run l n_pages w (fun q _ => Hsrv q)) as (w' & new & Hrun & _).
  eexists. split; [exact (f_equal fst Hrun)|].
  rewrite yielded_dicts. change 0 with (Z.of_nat 0) at 1. now rewrite concat_pages.
Qed.


(** X17. [add_element] from a path: when there is no such file, the exception is
    raised before anything is sent, and nothing is created. *)
Theorem add_element_missing_file w new_title new_description new_tags http_ref path interpret :
  w_files w !! path = None ->
  add_element new_title new_description new_tags http_ref (inl path) interpret w
  = (inl ContentException, w).
Proof. intros Hfile. unfold add_element. run. now rewrite Hfile. Qed.

(** X18. [add_element], when the service creates the element under an identifier
    of at least 8 characters and answers the refresh and the lookup: the
    element is created, the dataset is refreshed, the element is fetched by
    identifier, and what is uploaded is the given bytes, or, for a path,
    the bytes of the file, passed through [cipher] when an interpreter is
    set. *)
Theorem add_element_uploads w new_title new_description new_tags http_ref content interpret
    file_bytes uploaded id s1 definition meta r s2 :
  let prefix := url_prefix (w_self w) in
  let body := {| new_title := new_title; new_description := new_description;
                 new_tags := new_tags; new_http_ref := http_ref |} in
  (content = inr uploaded \/
   exists path,
     content = inl path /\ w_files w !! path = Some file_bytes /\
     uploaded = match binary_interpreter (w_self w) with
                | None => file_bytes
                | Some i => cipher i file_bytes
                end) ->
  srv_post_element (w_srv w) prefix body = (inr id, s1) ->
  (8 <= String.length id)%nat ->
  srv_dataset s1 prefix = inr definition ->
  srv_element s1 (def_url_prefix definition) id = inr meta ->
  srv_put_content s1 (def_url_prefix definition) (_id meta) uploaded interpret = (r, s2) ->
  exists w',
    add_element new_title new_description new_tags http_ref content interpret w
    = (match r with
       | inr _ => inr {| el_dict := meta; content_promise := Some (length (w_futures w)) |}
       | inl e => inl e
       end, w') /\
    w_srv w' = s2 /\
    elements_count (w_self w') = def_elements_count definition /\
    page_requests (w_requests w') = page_requests (w_requests w).
Proof.
  intros prefix body Hcontent Hpost Hlong Hget Hmeta Hput. subst prefix body.
  unfold add_element.
  assert (Hstaged :
    (match content with
     | inl path =>
         bind (gets w_files) (fun files =>
           match files !! path with
           | None => raise ContentException
           | Some content_bytes =>
               bind (gets (fun w0 : World Srv => binary_interpreter (w_self w0)))
                 (fun interpreter =>
                    ret (match interpreter with
                         | None => content_bytes
                         | Some i => cipher i content_bytes
                         end))
           end)
     | inr b => ret b
     end) w = (inr uploaded, w)).
  { destruct Hcontent as [-> | (path & -> & Hfile & ->)]; [reflexivity|]. run. now rewrite Hfile. }
  unfold bind at 1. rewrite Hstaged.
  unfold refresh, __getitem__. cbn [key_str]. unfold _retrieve_content. run.
  rewrite Hpost. simpl. rewrite Hget. simpl.
  assert (Hlt : (String.length id <? 8)%nat = false) by (apply Nat.ltb_ge; lia).
  rewrite Hlt. simpl. rewrite Hmeta. simpl.
  destruct (srv_element_content s1 (def_url_prefix definition) (get_id (from_dict meta)));
    simpl; unfold get_id; cbn [el_dict set_promise from_dict]; rewrite Hput;
    destruct r as [e'|[]]; simpl; eexists; (split; [reflexivity|]); cbn;
    unfold page_requests; rewrite !omap_app; cbn; rewrite ?app_nil_r; repeat split.
Qed.

End Mutations.

(** ** The page count *)

(** X20. [number_of_pages len ps] is the least number of pages of [ps] elements
    that hold [len] elements. *)
Theorem number_of_pages_least len ps m :
  0 < ps ->
  (len <= m * ps <-> number_of_pages len ps <= m).
Proof.
  intros Hps. rewrite number_of_pages_ceil by assumption.
  pose proof (Z.mod_pos_bound (len + ps - 1) ps Hps) as Hmod.
  pose proof (Z.div_mod (len + ps - 1) ps ltac:(lia)) as Hdm.
  split; intros Hle; nia.
Qed.

(** ** Worked instances *)

Ltac fresh_in_step :=
  split; [reflexivity
         |split; [intros p; reflexivity
                 |intros p page; cbn; rewrite lookup_empty; discriminate]].

Lemma number_of_pages_least_scenario :
  (5 <= 3 * 2 <-> number_of_pages 5 2 <= 3) /\ (5 <= 2 * 2 <-> number_of_pages 5 2 <= 2).
Proof.
  split; apply number_of_pages_least; lia.
Defined.

Lemma get_key_again_scenario :
  let w1 := snd (_get_key 3 scenario) in
  fst (_get_key 3 scenario) = inr "d" /\
  (CACHE_TIME = 60 /\
   w_clock (elapse 60 w1) - last_cache_time (w_self (elapse 60 w1)) = 60 /\
   w_clock (elapse 61 w1) - last_cache_time (w_self (elapse 61 w1)) = 61) /\
  _get_key 3 (elapse 60 w1) = (inr "d", elapse 60 w1) /\
  (forall j, j / page_size (w_self scenario) = 3 / page_size (w_self scenario) ->
             snd (_get_key j (elapse 60 w1)) = elapse 60 w1) /\
  w_requests (snd (_get_key 3 (elapse 61 w1)))
  = w_requests (elapse 61 w1)
    ++ [GetElementsPage (url_prefix (w_self (elapse 61 w1))) (3 / page_size (w_self scenario))].
Proof.
  intros w1.
  assert (Hps : page_size (w_self scenario) <> 0) by discriminate.
  assert (Hok : fst (_get_key 3 scenario) = inr "d") by reflexivity.
  assert (Hkeep : forall dt, keeps_cache w1 (elapse dt w1)) by (intros dt; repeat split).
  split; [exact Hok|]. split; [repeat split|].
  destruct (get_key_again scenario 3 "d" Hps Hok (elapse 60 w1) (Hkeep 60)) as [Hyoung _].
  destruct (get_key_again scenario 3 "d" Hps Hok (elapse 61 w1) (Hkeep 61)) as [_ Hold].
  destruct (Hyoung ltac:(vm_compute; discriminate)) as [Hsame Hpage].
  split; [exact Hsame|]. split; [exact Hpage|].
  apply Hold. reflexivity.
Defined.

Lemma keys_lists_all_scenario :
  fst (keys (-1) scenario) = inr (map _id (map fst (map el abcde))) /\
  exists pages, only_resolved pages scenario (snd (keys (-1) scenario)).
Proof.
  assert (Hstep : in_step (map fst (map el abcde)) scenario) by fresh_in_step.
  exact (keys_lists_all (map fst (map el abcde)) scenario Hstep eq_refl).
Defined.


Lemma getitem_index_as_slice_scenario :
  __getitem__ (KStr "2") scenario
  = __getitem__ (KSlice (slice (Some 2) (Some (2 + 1)) (Some 1))) scenario /\
  __getitem__ (KInt 2) scenario
  = __getitem__ (KSlice (slice (Some 2) (Some (2 + 1)) (Some 1))) scenario.
Proof.
  split.
  - apply (getitem_index_as_slice scenario (KStr "2") "2" 2); [reflexivity|cbn; lia|reflexivity].
  - apply (getitem_index_as_slice scenario (KInt 2) "2" 2); [reflexivity|cbn; lia|reflexivity].
Defined.

Lemma getitem_long_int_rejected_scenario :
  __getitem__ (KInt 12345678) scenario = (inl (KeyError TypeNotAllowed), scenario).
Proof.
  apply (getitem_long_int_rejected scenario 12345678). cbn. lia.
Defined.

Lemma getitem_slice_in_range_scenario :
  let key := KSlice (slice (Some 1) (Some 4) None) in
  let ids := map _id (sublist 1 4 (map fst (map el abcde))) in
  let segs := segments ids (page_size (w_self scenario)) in
  (ids = ["b"; "c"; "d"] /\ segs = [["b"; "c"]; ["d"]]) /\
  exists w',
    __getitem__ key scenario
    = (item_of key
         (concat (imap (fun j _ => yield_page (length (w_futures scenario) + j)
                                     (map fst [el "b"; el "c"; el "d"])) segs)), w') /\
    bundle_requests (w_requests w')
    = bundle_requests (w_requests scenario) ++ replicate (length segs) ids /\
    content_requests (w_requests w')
    = content_requests (w_requests scenario) ++ replicate (length segs) ids /\
    w_futures w'
    = w_futures scenario
      ++ replicate (length segs)
           (content_outcome (w_srv scenario) (url_prefix (w_self scenario)) ids).
Proof.
  intros key ids segs. split; [split; reflexivity|].
  apply (getitem_slice_in_range (map fst (map el abcde)) scenario 1 4 None
           (map fst [el "b"; el "c"; el "d"])).
  - fresh_in_step.
  - lia.
  - lia.
  - cbn. lia.
  - now left.
  - reflexivity.
Defined.

Lemma getitem_index_in_range_scenario :
  exists w',
    __getitem__ (KInt 2) scenario
    = (inr (One {| el_dict := fst (el "c");
                   content_promise := Some (length (w_futures scenario)) |}), w') /\
    bundle_requests (w_requests w') = bundle_requests (w_requests scenario) ++ [[_id (fst (el "c"))]] /\
    content_requests (w_requests w') = content_requests (w_requests scenario) ++ [[_id (fst (el "c"))]].
Proof.
  apply (getitem_index_in_range (map fst (map el abcde)) scenario 2 (fst (el "c")) (fst (el "c"))).
  - fresh_in_step.
  - cbn. lia.
  - lia.
  - reflexivity.
  - reflexivity.
Defined.

Lemma getitem_index_out_of_range_scenario :
  (fst (__getitem__ (KInt 5) scenario) = inl IndexError /\
   bundle_requests (w_requests (snd (__getitem__ (KInt 5) scenario)))
   = bundle_requests (w_requests scenario) /\
   content_requests (w_requests (snd (__getitem__ (KInt 5) scenario)))
   = content_requests (w_requests scenario)) /\
  (fst (__getitem__ (KInt (-2)) scenario) = inl IndexError /\
   bundle_requests (w_requests (snd (__getitem__ (KInt (-2)) scenario)))
   = bundle_requests (w_requests scenario) /\
   content_requests (w_requests (snd (__getitem__ (KInt (-2)) scenario)))
   = content_requests (w_requests scenario)).
Proof.
  split.
  - apply (getitem_index_out_of_range (map fst (map el abcde)) scenario 5);
      [fresh_in_step|cbn; lia|cbn; lia|cbn; lia].
  - apply (getitem_index_out_of_range (map fst (map el abcde)) scenario (-2));
      [fresh_in_step|cbn; lia|cbn; lia|cbn; lia].
Defined.

Lemma getitem_negative_stop_raises_scenario :
  exists e,
    fst (__getitem__ (KSlice (slice (Some 0) (Some (-1)) None)) scenario) = inl e /\
    is_LookupError e = true.
Proof.
  apply (getitem_negative_stop_raises (map fst (map el abcde)) scenario 0 (-1) None).
  - fresh_in_step.
  - reflexivity.
  - cbn. lia.
  - lia.
  - now left.
Defined.

Lemma getitem_slice_bundle_failure_outage :
  fst (__getitem__ (KSlice (slice (Some 1) (Some 4) None)) scenario_outage)
  = inl (RequestError 503) /\
  w_futures (snd (__getitem__ (KSlice (slice (Some 1) (Some 4) None)) scenario_outage))
  = w_futures scenario_outage.
Proof.
  apply (getitem_slice_bundle_failure (map fst (map el abcde)) scenario_outage 1 4 None).
  - fresh_in_step.
  - lia.
  - lia.
  - cbn. lia.
  - now left.
  - reflexivity.
Defined.

Lemma getitem_many_has_two_scenario :
  fst (__getitem__ (py_slice 1 3) scenario)
  = inr (Many [ {| el_dict := fst (el "b"); content_promise := Some 0%nat |};
                {| el_dict := fst (el "c"); content_promise := Some 0%nat |} ]) /\
  (2 <= length [ {| el_dict := fst (el "b"); content_promise := Some 0%nat |};
                 {| el_dict := fst (el "c"); content_promise := Some 0%nat |} ])%nat.
Proof.
  assert (Hret : fst (__getitem__ (py_slice 1 3) scenario)
                 = inr (Many [ {| el_dict := fst (el "b"); content_promise := Some 0%nat |};
                               {| el_dict := fst (el "c"); content_promise := Some 0%nat |} ]))
    by reflexivity.
  split; [exact Hret|].
  exact (getitem_many_has_two scenario (py_slice 1 3) _ Hret).
Defined.

Lemma getitem_identifier_found_archive :
  exists w',
    __getitem__ (KStr "element-0002") archive
    = (inr (One {| el_dict := fst (el "element-0002");
                   content_promise := Some (length (w_futures archive)) |}), w') /\
    w_self w' = w_self archive /\
    w_requests w'
    = w_requests archive
      ++ [GetElement (url_prefix (w_self archive)) "element-0002";
          GetElementContent (url_prefix (w_self archive)) (_id (fst (el "element-0002")))] /\
    length (w_futures w') = S (length (w_futures archive)).
Proof.
  apply (getitem_identifier_found archive "element-0002" (fst (el "element-0002"))).
  - cbn. lia.
  - reflexivity.
Defined.

Lemma iter_follows_cached_count_stale :
  (elements_count (w_self scenario_stale) = 3 /\
   exists elements,
     fst (__iter__ scenario_stale) = inr elements /\
     map el_dict elements
     = take (Z.to_nat (number_of_pages (elements_count (w_self scenario_stale))
                         (page_size (w_self scenario_stale)))
             * Z.to_nat (page_size (w_self scenario_stale)))
         (map fst (map el abcde))) /\
  (elements_count (w_self scenario_miscounted) = -1 /\
   __iter__ scenario_miscounted = (inl ValueError, scenario_miscounted)).
Proof.
  assert (Hsrv : forall w : World MemServer,
             w_srv w = w_srv scenario -> page_size (w_self w) = 2 ->
             serves (w_srv w) (url_prefix (w_self w)) (page_size (w_self w))
               (map fst (map el abcde)))
    by (intros w -> -> p; reflexivity).
  split; (split; [reflexivity|]).
  - exact (iter_follows_cached_count (map fst (map el abcde)) scenario_stale eq_refl
             (Hsrv scenario_stale eq_refl eq_refl)).
  - exact (iter_follows_cached_count (map fst (map el abcde)) scenario_miscounted eq_refl
             (Hsrv scenario_miscounted eq_refl eq_refl)).
Defined.

Lemma add_element_missing_file_scenario :
  add_element "photo" "" [] "" (inl "no-such-file") true scenario
  = (inl ContentException, scenario).
Proof.
  apply (add_element_missing_file scenario "photo" "" [] "" "no-such-file" true).
  reflexivity.
Defined.

Lemma add_element_uploads_archive :
  let w := archive_with_file in
  let body := {| new_title := "photo"; new_description := ""; new_tags := [];
                 new_http_ref := "" |} in
  let s1 := snd (srv_post_element (w_srv w) (url_prefix (w_self w)) body) in
  let meta := {| _id := "0123456789abcdef"; d_title := "photo" |} in
  let uploaded := [Byte.x03; Byte.x02; Byte.x01] in
  let put := srv_put_content s1 (def_url_prefix (mem_dataset s1)) (_id meta) uploaded true in
  exists w',
    add_element "photo" "" [] "" (inl "photo.bin") true w
    = (match fst put with
       | inr _ => inr {| el_dict := meta; content_promise := Some (length (w_futures w)) |}
       | inl e => inl e
       end, w') /\
    w_srv w' = snd put /\
    elements_count (w_self w') = def_elements_count (mem_dataset s1) /\
    page_requests (w_requests w') = page_requests (w_requests w).
Proof.
  intros w body s1 meta uploaded put.
  apply (add_element_uploads w "photo" "" [] "" (inl "photo.bin") true
           [Byte.x01; Byte.x02; Byte.x03] uploaded "0123456789abcdef" s1
           (mem_dataset s1) meta (fst put) (snd put)).
  - right. exists "photo.bin". repeat split.
  - reflexivity.
  - cbn. lia.
  - reflexivity.
  - reflexivity.
  - reflexivity.
Defined.



(** ** The URL prefix *)

Lemma has_slash_app a b : has_slash (a ++ "/" ++ b) = true.
Proof.
  change ("/" ++ b)%string with (String "/" b).
  unfold has_slash. induction a as [|c a IH]; simpl; [reflexivity|].
  rewrite IH. apply orb_true_r.
Qed.

(** X21. Whatever [__init__] stores as URL prefix has a slash in it, and is
    stored unchanged by a later [__init__], with or without a token: a
    prefix is qualified by the token's at most once. *)
Theorem init_url_prefix_qualified url_prefix token stored :
  init_url_prefix url_prefix token = Some stored ->
  has_slash stored = true /\
  forall token', init_url_prefix stored token' = Some stored.
Proof.
  unfold init_url_prefix. intros Hinit.
  assert (Hslash : has_slash stored = true).
  { destruct (has_slash url_prefix) eqn:E; [now inversion Hinit; subst|].
    destruct token as [tk|]; [|discriminate]. inversion Hinit; subst. apply has_slash_app. }
  split; [exact Hslash|]. intros token'. now rewrite Hslash.
Qed.

Lemma init_url_prefix_instances :
  (has_slash "user/data" = true /\
   forall token', init_url_prefix "user/data" token' = Some "user/data") /\
  init_url_prefix "data" (Some {| get_prefix := "user" |}) = Some "user/data" /\
  init_url_prefix "data" None = None.
Proof.
  split; [|split; reflexivity].
  apply (init_url_prefix_qualified "data" (Some {| get_prefix := "user" |}) "user/data").
  reflexivity.
Defined.

(** ** The names under which [save_to_folder] records the elements *)

Lemma string_length_app (a b : string) :
  String.length (a ++ b) = (String.length a + String.length b)%nat.
Proof. induction a as [|c a IH]; [reflexivity|]. simpl. f_equal. exact IH. Qed.

Lemma string_app_cancel (a b t : string) : (a ++ t = b ++ t)%string -> a = b.
Proof.
  revert b. induction a as [|c a IH]; intros [|d b] E.
  - reflexivity.
  - apply (f_equal String.length) in E. rewrite !string_length_app in E. simpl in E. lia.
  - apply (f_equal String.length) in E. rewrite !string_length_app in E. simpl in E. lia.
  - change (String c (a ++ t) = String d (b ++ t))%string in E.
    inversion E; subst. f_equal. now apply IH.
Qed.

(** [str] is one-to-one on integers. *)
Lemma str_of_int_inj n m : str_of_int n = str_of_int m -> n = m.
Proof.
  unfold str_of_int. intros E. apply DecimalZ.to_int_inj.
  assert (Hnn : forall z, Z.to_int z <> Decimal.Pos Decimal.Nil /\ Z.to_int z <> Decimal.Neg Decimal.Nil).
  { intros [|q|q]; cbn; split; try discriminate; intros [= Hq];
      now apply DecimalPos.Unsigned.to_uint_nonnil in Hq. }
  apply (f_equal NilZero.int_of_string) in E.
  rewrite !NilZero.isi in E by apply Hnn. now inversion E.
Qed.

Lemma FileKey_eqb_eq a b : FileKey_eqb a b = true <-> a = b.
Proof.
  destruct a, b; cbn; try (split; [discriminate|discriminate]).
  - rewrite Z.eqb_eq. split; [now intros ->|now intros [= ->]].
  - rewrite String.eqb_eq. split; [now intros ->|now intros [= ->]].
Qed.

Lemma dict_set_fresh {V} k (v : V) d :
  ~ In k (map fst d) -> dict_set k v d = d ++ [(k, v)].
Proof.
  induction d as [|[k' v'] d IH]; intros Hk; [reflexivity|]. cbn in *.
  destruct (FileKey_eqb k' k) eqn:E; [apply FileKey_eqb_eq in E; tauto|].
  now rewrite IH by tauto.
Qed.

Lemma dict_set_keys {V} k (v : V) d :
  In k (map fst d) -> map fst (dict_set k v d) = map fst d.
Proof.
  induction d as [|[k' v'] d IH]; intros Hk; [destruct Hk|]. cbn in *.
  destruct (FileKey_eqb k' k) eqn:E.
  - apply FileKey_eqb_eq in E. now subst.
  - cbn. f_equal. apply IH. destruct Hk as [->|Hk]; [|exact Hk].
    assert (FileKey_eqb k k = true) by now apply FileKey_eqb_eq. congruence.
Qed.

Lemma element_key_inj ext n m :
  element_key ext (FileInt n) = element_key ext (FileInt m) -> n = m.
Proof.
  destruct ext as [e|]; cbn; intros [= E]; [|exact E].
  apply str_of_int_inj. eapply string_app_cancel. exact E.
Qed.

(** The numbered loop appends: entry after entry, under the next number. *)
Lemma collect_numbered ext elements : forall counter metadata,
  (forall k, In k (map fst metadata) -> exists n, n <= counter /\ k = element_key ext (FileInt n)) ->
  collect_metadata true ext counter metadata elements
  = metadata
    ++ map (fun '(n, element) => (element_key ext (FileInt n), el_dict element))
         (zip (pages_from (counter + 1) (length elements)) elements).
Proof.
  induction elements as [|element elements IH]; intros counter metadata Hold.
  - cbn. now rewrite app_nil_r.
  - cbn [collect_metadata length pages_from zip zip_with map].
    assert (Hfresh : ~ In (element_key ext (FileInt (counter + 1))) (map fst metadata)).
    { intros Hin. destruct (Hold _ Hin) as (n & Hn & E). apply element_key_inj in E. lia. }
    rewrite (dict_set_fresh _ _ _ Hfresh), IH.
    + now rewrite <- app_assoc.
    + intros k. rewrite map_app, in_app_iff. intros [Hin|[<-|[]]].
      * destruct (Hold _ Hin) as (n & Hn & E). exists n. split; [lia|exact E].
      * exists (counter + 1). split; [lia|reflexivity].
Qed.

(** X22. With [use_numbered_ids], no element is lost to a name: the metadata has
    one entry per element yielded, in order, the [i]-th (from 0) under the
    number [i], or under ["i.ext"] when an extension is given, with or
    without its leading dot. *)
Theorem saved_metadata_numbered ext elements :
  saved_metadata true ext elements
  = map (fun '(n, element) => (element_key (strip_leading_dot ext) (FileInt n), el_dict element))
      (zip (py_range 0 (Z.of_nat (length elements)) 1) elements) /\
  length (saved_metadata true ext elements) = length elements.
Proof.
  assert (E : saved_metadata true ext elements
              = map (fun '(n, element) =>
                       (element_key (strip_leading_dot ext) (FileInt n), el_dict element))
                  (zip (py_range 0 (Z.of_nat (length elements)) 1) elements)).
  { unfold saved_metadata. rewrite collect_numbered by (intros k []).
    now rewrite py_range_pages, Z.sub_0_r, Nat2Z.id. }
  split; [exact E|]. rewrite E, length_map, length_zip_with.
  rewrite py_range_pages, Z.sub_0_r, Nat2Z.id.
  assert (Hlen : forall p k, length (pages_from p k) = k)
    by (intros p k; revert p; induction k; intros p; cbn; [reflexivity|now rewrite IHk]).
  rewrite Hlen. lia.
Qed.
